(** * BuildStream scheduler: Job, TrackQueue and Stream.build

    A shallow embedding of
    - [buildstream/_scheduler/job.py]        (class [Job], class [Envelope]),
    - [buildstream/_scheduler/trackqueue.py] (class [TrackQueue]),
    - [buildstream/_stream.py]               (method [Stream.build]),
    followed by the properties of the retry loop, of the envelope
    protocol between a worker and its parent, and of the queue assembly.

    Conventions.  Python integers are [Z].  A Python object that crosses
    the process boundary is a [pyobj].  A method that mutates [self] is a
    function from the state before to the state after; a method that may
    raise returns an [outcome], which keeps the state reached when the
    exception left the method (mutations done before a [raise] persist). *)

From Stdlib Require Import ZArith List String Bool Lia DecimalString.
From Stdlib Require Import DecimalZ DecimalPos.
Import ListNotations.
Local Open Scope Z_scope.

(* ================================================================== *)
(** ** Values shared by the parent and the worker *)

(** "Any abstract simple python object, including a string, int, bool,
    list or dict" (job.py, comment above [class Job]). *)
#[warnings="-register-all"]
Inductive pyobj : Type :=
| PyNone
| PyBool (b : bool)
| PyInt (z : Z)
| PyStr (s : string)
| PyList (items : list pyobj)
| PyDict (entries : list (string * pyobj)).

(** [o is None] *)
Definition is_None (o : pyobj) : bool :=
  match o with PyNone => true | _ => false end.

(** The message types of [_message.py] (a module the sources at hand import
    but do not contain); the constructors are the members the code refers
    to, with the names it uses. *)
Inductive MessageType : Type :=
| DEBUG | STATUS | INFO | WARN | ERROR | BUG | LOG | START | SUCCESS | FAIL.

Scheme Equality for MessageType.

Module Message.
(** [Message(unique_id, message_type, message, **kwargs)]; [action_name]
    and [task_id] are the tags [child_message_handler] writes. *)
Record Message : Type := mk {
  unique_id : Z;
  message_type : MessageType;
  message : string;
  detail : option string;
  scheduler : bool;
  action_name : option string;
  task_id : option Z
}.

Definition set_message_type (t : MessageType) (m : Message) : Message :=
  mk (unique_id m) t (message m) (detail m) (scheduler m)
     (action_name m) (task_id m).

Definition tag (name : string) (id : Z) (m : Message) : Message :=
  mk (unique_id m) (message_type m) (message m) (detail m) (scheduler m)
     (Some name) (Some id).
End Message.
Abbreviation Message := Message.Message.

(** [class Envelope]: a tag and a payload.  The four tags the worker
    writes carry payloads of four shapes; [EOther] is an envelope with any
    other tag, which reaches the final [else] of
    [parent_process_envelope]. *)
Inductive Envelope : Type :=
| EMessage (m : Message)
| EError (domain reason : option string)
| EResult (value : pyobj)
| EWorkspace (value : pyobj)
| EOther (tag : string) (value : pyobj).

Definition message_type (e : Envelope) : string :=
  match e with
  | EMessage _ => "message"
  | EError _ _ => "error"
  | EResult _ => "result"
  | EWorkspace _ => "workspace"
  | EOther tag _ => tag
  end%string.

(** [BstError]: what [child_action] reads of it. *)
Record BstError : Type := {
  err_str : string;
  err_detail : option string;
  err_domain : option string;
  err_reason : option string
}.

Inductive exn : Type :=
| AssertionError
| AttributeError
| ProcessLookupError
| TypeError
| Exception'.

Inductive signal : Type := SIGTSTP | SIGCONT | SIGTERM.

Scheme Equality for signal.

(** The element a job works on: what [job.py] reads of it. *)
Module Element.
Record Element : Type := mk {
  name : string;
  _get_unique_id : Z;
  _get_workspace : option pyobj;   (* [workspace.to_dict()] when there is one *)
  environment : string             (* the dumped [__environment] *)
}.
End Element.
Abbreviation Element := Element.Element.

(* ================================================================== *)
(** ** job.py: the [Job] object *)

Module Job.

(** The fields of [Job.__init__] that the methods below read or write.
    [queue] is the content of the [multiprocessing.Queue] not yet read by
    the parent; [process] is the [Process] object, known by its pid. *)
Record Job : Type := mk {
  queue : list Envelope;
  process : option Z;
  action_name : string;
  element : Element;
  listening : bool;
  suspended : bool;
  max_retries : Z;
  pid : option Z;
  result : pyobj;
  workspace_dict : pyobj;
  tries : Z
}.

(** [Job(scheduler, element, action_name, action_cb, complete_cb,
    max_retries=...)] *)
Definition __init__ (element : Element) (action_name : string)
           (max_retries : Z) : Job :=
  {| queue := []; process := None; action_name := action_name;
     element := element; listening := false; suspended := false;
     max_retries := max_retries; pid := None; result := PyNone;
     workspace_dict := PyNone; tries := 0 |}.

Definition set_queue (q : list Envelope) (j : Job) : Job :=
  mk q (process j) (action_name j) (element j) (listening j) (suspended j)
     (max_retries j) (pid j) (result j) (workspace_dict j) (tries j).
Definition set_process (x : option Z) (j : Job) : Job :=
  mk (queue j) x (action_name j) (element j) (listening j) (suspended j)
     (max_retries j) (pid j) (result j) (workspace_dict j) (tries j).
Definition set_listening (b : bool) (j : Job) : Job :=
  mk (queue j) (process j) (action_name j) (element j) b (suspended j)
     (max_retries j) (pid j) (result j) (workspace_dict j) (tries j).
Definition set_suspended (b : bool) (j : Job) : Job :=
  mk (queue j) (process j) (action_name j) (element j) (listening j) b
     (max_retries j) (pid j) (result j) (workspace_dict j) (tries j).
Definition set_pid (x : option Z) (j : Job) : Job :=
  mk (queue j) (process j) (action_name j) (element j) (listening j)
     (suspended j) (max_retries j) x (result j) (workspace_dict j) (tries j).
Definition set_result (v : pyobj) (j : Job) : Job :=
  mk (queue j) (process j) (action_name j) (element j) (listening j)
     (suspended j) (max_retries j) (pid j) v (workspace_dict j) (tries j).
Definition set_workspace_dict (v : pyobj) (j : Job) : Job :=
  mk (queue j) (process j) (action_name j) (element j) (listening j)
     (suspended j) (max_retries j) (pid j) (result j) v (tries j).
Definition set_tries (n : Z) (j : Job) : Job :=
  mk (queue j) (process j) (action_name j) (element j) (listening j)
     (suspended j) (max_retries j) (pid j) (result j) (workspace_dict j) n.

(** What the parent process does that an observer can count: workers
    started, calls of [complete_cb] with their [success] and [result]
    arguments, and the assignments to [self.result] and
    [self.workspace_dict]. *)
Inductive Event : Type :=
| Spawned (pid : Z)
| Completed (success : bool) (result : pyobj)
| AssignResult (value : pyobj)
| AssignWorkspace (value : pyobj).

(** The parent process around one job: the job, the scheduler's
    [internal_stops], the messages handed to [scheduler.context.message],
    the slot written by [set_last_task_error], the signals [os.kill]
    delivered, the pid the child watcher holds a handler for, and the
    events so far. *)
Record Parent : Type := mkParent {
  job : Job;
  internal_stops : Z;
  context_messages : list Message;
  last_task_error : option (option string * option string);
  signals : list (Z * signal);
  watcher : option Z;
  trace : list Event
}.

Definition set_job (j : Job) (p : Parent) : Parent :=
  mkParent j (internal_stops p) (context_messages p) (last_task_error p)
           (signals p) (watcher p) (trace p).
Definition set_internal_stops (n : Z) (p : Parent) : Parent :=
  mkParent (job p) n (context_messages p) (last_task_error p)
           (signals p) (watcher p) (trace p).
Definition set_context_messages (l : list Message) (p : Parent) : Parent :=
  mkParent (job p) (internal_stops p) l (last_task_error p)
           (signals p) (watcher p) (trace p).
Definition set_last_task_error (domain reason : option string)
           (p : Parent) : Parent :=
  mkParent (job p) (internal_stops p) (context_messages p)
           (Some (domain, reason)) (signals p) (watcher p) (trace p).
Definition set_signals (l : list (Z * signal)) (p : Parent) : Parent :=
  mkParent (job p) (internal_stops p) (context_messages p)
           (last_task_error p) l (watcher p) (trace p).
Definition set_watcher (w : option Z) (p : Parent) : Parent :=
  mkParent (job p) (internal_stops p) (context_messages p)
           (last_task_error p) (signals p) w (trace p).
Definition record (e : Event) (p : Parent) : Parent :=
  mkParent (job p) (internal_stops p) (context_messages p)
           (last_task_error p) (signals p) (watcher p) (trace p ++ [e]).

(** A parent with a job just constructed. *)
Definition start (j : Job) : Parent :=
  {| job := j; internal_stops := 0; context_messages := [];
     last_task_error := None; signals := []; watcher := None; trace := [] |}.

Inductive outcome : Type :=
| Ok (p : Parent)
| Raise (e : exn) (p : Parent).

(** [Message(plugin._get_unique_id(), message_type, message,
    scheduler=True, **kwargs)], as built by [Job.message]. *)
Definition new_message (plugin : Element) (t : MessageType) (text : string)
           (detail : option string) : Message :=
  Message.mk (Element._get_unique_id plugin) t text detail true None None.

(** [Job.message] in the parent: the context hands the message to the
    frontend. *)
Definition message (t : MessageType) (text : string) (p : Parent) : Parent :=
  set_context_messages
    (context_messages p ++ [new_message (element (job p)) t text None]) p.

(* ---------------------------------------------------------------- *)
(** *** Parent process *)

Definition parent_start_listening (p : Parent) : Parent :=
  if negb (listening (job p))
  then set_job (set_listening true (job p)) p
  else p.

Definition parent_stop_listening (p : Parent) : Parent :=
  if listening (job p)
  then set_job (set_listening false (job p)) p
  else p.

Definition parent_process_envelope (envelope : Envelope) (p : Parent)
  : outcome :=
  if negb (listening (job p)) then Ok p
  else match envelope with
       | EMessage m =>
           Ok (set_context_messages (context_messages p ++ [m]) p)
       | EError domain reason =>
           Ok (set_last_task_error domain reason p)
       | EResult v =>
           if is_None (result (job p))
           then Ok (record (AssignResult v) (set_job (set_result v (job p)) p))
           else Raise AssertionError p
       | EWorkspace v =>
           Ok (record (AssignWorkspace v)
                      (set_job (set_workspace_dict v (job p)) p))
       | EOther _ _ => Raise Exception' p
       end.

(** [while not self.queue.empty(): ...]: one envelope is taken off the
    queue, then processed; an exception leaves the rest on the queue. *)
Fixpoint drain (q : list Envelope) (p : Parent) : outcome :=
  match q with
  | [] => Ok (set_job (set_queue [] (job p)) p)
  | envelope :: rest =>
      match parent_process_envelope envelope
              (set_job (set_queue rest (job p)) p) with
      | Ok p' => drain rest p'
      | Raise e p' => Raise e p'
      end
  end.

Definition parent_process_queue (p : Parent) : outcome :=
  drain (queue (job p)) p.

Definition parent_recv (p : Parent) : outcome := parent_process_queue p.

Definition parent_shutdown (p : Parent) : outcome :=
  match parent_process_queue p with
  | Ok p' => Ok (parent_stop_listening p')
  | Raise e p' => Raise e p'
  end.

(** [spawn()]; [new_pid] is the pid the operating system gives the
    process started by [self.process.start()]. *)
Definition spawn (new_pid : Z) (p : Parent) : Parent :=
  let p := set_job (set_tries (tries (job p) + 1) (job p)) p in
  let p := parent_start_listening p in
  let p := set_job (set_process (Some new_pid) (job p)) p in
  let p := record (Spawned new_pid) p in
  let p := set_job (set_pid (process (job p)) (job p)) p in
  set_watcher (pid (job p)) p.

(** [parent_child_completed(pid, returncode, element)], called by the
    child watcher, which drops its handler for the pid before the call. *)
Definition parent_child_completed (new_pid : Z) (returncode : Z)
           (p : Parent) : outcome :=
  match parent_shutdown (set_watcher None p) with
  | Raise e p' => Raise e p'
  | Ok p =>
      if negb (returncode =? 0) && (tries (job p) <=? max_retries (job p))
      then Ok (spawn new_pid p)
      else Ok (record (Completed (returncode =? 0) (result (job p))) p)
  end.

(** [suspend()]; [found] tells whether [os.kill] finds the process
    ([ProcessLookupError] otherwise). *)
Definition suspend (found : bool) (p : Parent) : outcome :=
  if negb (suspended (job p)) then
    let p := message STATUS (action_name (job p) ++ " suspending") p in
    match process (job p) with
    | None => Raise AttributeError p
    | Some child =>
        if found then
          let p := set_signals (signals p ++ [(child, SIGTSTP)]) p in
          let p := set_internal_stops (internal_stops p + 1) p in
          Ok (set_job (set_suspended true (job p)) p)
        else Ok p
    end
  else Ok p.

(** [resume(silent=False)] *)
Definition resume (silent : bool) (found : bool) (p : Parent) : outcome :=
  if suspended (job p) then
    let p := if negb silent
             then message STATUS (action_name (job p) ++ " resuming") p
             else p in
    match process (job p) with
    | None => Raise AttributeError p
    | Some child =>
        if found then
          let p := set_signals (signals p ++ [(child, SIGCONT)]) p in
          Ok (set_job (set_suspended false (job p)) p)
        else Raise ProcessLookupError p
    end
  else Ok p.

(** [terminate()]; [found] tells whether the [os.kill] of [resume] finds
    the process, [alive] whether [self.process.terminate()] still has a
    process to signal (it passes over a process that is gone). *)
Definition terminate (found alive : bool) (p : Parent) : outcome :=
  match resume true found p with
  | Raise e p => Raise e p
  | Ok p =>
      let p := message STATUS (action_name (job p) ++ " terminating") p in
      let p := parent_stop_listening p in
      match process (job p) with
      | None => Raise AttributeError p
      | Some child =>
          if alive
          then Ok (set_signals (signals p ++ [(child, SIGTERM)]) p)
          else Ok p
      end
  end.

(* ---------------------------------------------------------------- *)
(** *** Child process *)

(** The worker: the job as it was when the process was forked, the
    envelopes put on the queue (oldest first) and the lines written by
    [child_log]. *)
Record Child : Type := mkChild {
  self : Job;
  sent : list Envelope;
  logfile : list Message
}.

Definition put (e : Envelope) (c : Child) : Child :=
  mkChild (self c) (sent c ++ [e]) (logfile c).

Definition child_log (m : Message) (c : Child) : Child :=
  mkChild (self c) (sent c) (logfile c ++ [m]).

(** What [action_cb(element)] does in one worker: the messages that
    plugins hand to the context while it runs (each with the value of
    [context.silent_messages()] at that moment), how it ends, and what
    [element._get_workspace()] and [context.silent_messages()] give once
    it is over. *)
Inductive raised : Type :=
| OfBstError (e : BstError)
| OfException (traceback : string).

Inductive finish : Type :=
| Returns (result : pyobj)
| Raises (e : raised).

Record Run : Type := {
  emitted : list (Message * bool);
  finished : finish;
  workspace : option pyobj;
  silent_messages : bool
}.

Definition str (n : Z) : string := NilZero.string_of_int (Z.to_int n).

Definition nl : string := String (Ascii.ascii_of_nat 10) EmptyString.

(** [{:02d}]: at least two characters, padded with a zero. *)
Definition format_02d (n : Z) : string :=
  if (String.length (str n) <? 2)%nat then ("0" ++ str n)%string else str n.

(** The time code [child_log] writes in front of a line; [elapsed] is
    [int(message.elapsed.total_seconds())]. *)
Definition timecode (t : MessageType) (elapsed : Z) : string :=
  if MessageType_beq t SUCCESS || MessageType_beq t FAIL then
    let hours := elapsed / (60 * 60) in
    let remainder := elapsed mod (60 * 60) in
    let minutes := remainder / 60 in
    let seconds := remainder mod 60 in
    (format_02d hours ++ ":" ++ format_02d minutes ++ ":"
       ++ format_02d seconds)%string
  else "--:--:--"%string.

Section ChildProcess.

(** [unconditional_messages] of [_message.py]. *)
Variable unconditional_messages : list MessageType.

Definition child_message_handler (silent : bool) (m : Message)
           (c : Child) : Child :=
  let m := Message.tag (action_name (self c))
                       (Element._get_unique_id (element (self c))) m in
  let c := child_log m c in
  let m := if MessageType_beq (Message.message_type m) FAIL
              && (tries (self c) <=? max_retries (self c))
           then Message.set_message_type WARN m
           else m in
  if silent && negb (existsb (MessageType_beq (Message.message_type m))
                             unconditional_messages)
  then c
  else if MessageType_beq (Message.message_type m) LOG then c
  else put (EMessage m) c.

(** [Job.message] in the worker, where the context's handler is
    [child_message_handler]. *)
Definition child_message (silent : bool) (t : MessageType) (text : string)
           (detail : option string) (c : Child) : Child :=
  child_message_handler silent
    (new_message (element (self c)) t text detail) c.

Definition child_send_error (e : raised) (c : Child) : Child :=
  let '(domain, reason) :=
    match e with
    | OfBstError e => (err_domain e, err_reason e)
    | OfException _ => (None, None)
    end in
  put (EError domain reason) c.

Definition child_send_result (result : pyobj) (c : Child) : Child :=
  if negb (is_None result) then put (EResult result) c else c.

(** [workspace] is [element._get_workspace()] in the worker. *)
Definition child_send_workspace (workspace : option pyobj) (c : Child)
  : Child :=
  match workspace with
  | Some d => put (EWorkspace d) c
  | None => c
  end.

Definition child_shutdown (exit_code : Z) (c : Child) : Child * Z :=
  (c, exit_code).

(** [child_action(element, queue, action_name)]: the worker's main
    function; it returns the worker at exit and the exit code.
    [silent] is [context.silent_messages()] when the worker starts. *)
Definition child_action (silent : bool) (forked : Job) (run : Run)
  : Child * Z :=
  let c := mkChild forked [] [] in
  let element := element forked in
  let c := child_message silent START (action_name forked) None c in
  let c := child_message silent LOG
             ("Build environment for element " ++ Element.name element)
             (Some (Element.environment element)) c in
  let c := fold_left (fun c ms => child_message_handler (snd ms) (fst ms) c)
                     (emitted run) c in
  let silent := silent_messages run in
  match finished run with
  | Raises (OfBstError e) =>
      let c :=
        if tries forked <=? max_retries forked
        then child_message silent FAIL
               ("Try #" ++ str (tries forked) ++ " failed, retrying") None c
        else child_message silent FAIL (err_str e) (err_detail e) c in
      let c := child_send_workspace (workspace run) c in
      let c := child_send_error (OfBstError e) c in
      child_shutdown 1 c
  | Raises (OfException traceback) =>
      let c := child_message silent BUG (action_name forked)
                 (Some ("An unhandled exception occured:" ++ nl ++ nl
                        ++ traceback)%string) c in
      child_shutdown 1 c
  | Returns result =>
      let c := child_send_workspace (workspace run) c in
      let c := child_send_result result c in
      let c := child_message silent SUCCESS (action_name forked) None c in
      child_shutdown 0 c
  end.

(* -------------------------------------------------------------- *)
(** *** A job from its first [spawn] to [complete_cb] *)

(** One worker as the world makes it: the pid it gets, what its action
    does, whether messages are silenced when it starts, and how many of
    its envelopes the parent has already read through [parent_recv]
    when the child watcher reports its exit. *)
Record Worker : Type := {
  worker_pid : Z;
  worker_run : Run;
  worker_silent : bool;
  worker_early : nat
}.

(** The worker forked by the last [spawn] runs to its exit; the event
    loop calls [parent_recv] once on the envelopes that arrived early,
    then the child watcher calls [parent_child_completed]. *)
Definition worker_exit (w : Worker) (new_pid : Z) (p : Parent) : outcome :=
  let '(c, returncode) :=
    child_action (worker_silent w) (job p) (worker_run w) in
  let arrive q p := set_job (set_queue (queue (job p) ++ q) (job p)) p in
  match parent_recv (arrive (firstn (worker_early w) (sent c)) p) with
  | Raise e p => Raise e p
  | Ok p =>
      parent_child_completed new_pid returncode
        (arrive (skipn (worker_early w) (sent c)) p)
  end.

(** The event loop as far as this job goes: while the child watcher
    holds a handler, the next thing to happen is the exit of that
    worker.  [world n] is the [n]-th worker of the job. *)
Fixpoint lifetime (fuel : nat) (world : Z -> Worker) (p : Parent)
  : option outcome :=
  match fuel with
  | O => None
  | S fuel =>
      match watcher p with
      | None => Some (Ok p)
      | Some _ =>
          let n := tries (job p) in
          match worker_exit (world n) (worker_pid (world (n + 1))) p with
          | Ok p' => lifetime fuel world p'
          | Raise e p' => Some (Raise e p')
          end
      end
  end.

Definition run_job (fuel : nat) (world : Z -> Worker) (j : Job)
  : option outcome :=
  lifetime fuel world (spawn (worker_pid (world 1)) (start j)).

End ChildProcess.

(** Observations on a trace. *)
Definition spawns (tr : list Event) : nat :=
  List.length (filter (fun e => match e with Spawned _ => true | _ => false end) tr).

Definition completions (tr : list Event) : list (bool * pyobj) :=
  flat_map (fun e => match e with Completed s r => [(s, r)] | _ => [] end) tr.

Definition result_assignments (tr : list Event) : nat :=
  List.length (filter (fun e => match e with AssignResult _ => true | _ => false end) tr).

Definition workspace_assignments (tr : list Event) : nat :=
  List.length (filter (fun e => match e with AssignWorkspace _ => true | _ => false end) tr).

(** [once_per_worker seen tr]: scanning [tr], no worker (the stretch
    between one [Spawned] and the next) assigns [workspace_dict] twice;
    [seen] tells whether the current worker already did. *)
Fixpoint once_per_worker (seen : bool) (tr : list Event) : bool :=
  match tr with
  | [] => true
  | Spawned _ :: tr => once_per_worker false tr
  | AssignWorkspace _ :: tr => negb seen && once_per_worker true tr
  | _ :: tr => once_per_worker seen tr
  end.

End Job.

(* ================================================================== *)
(** ** trackqueue.py: the [TrackQueue] *)

Module TrackQueue.

Inductive QueueStatus : Type := READY | WAIT | SKIP.

(** What a method hands back: a value, or the exception that left it. *)
Inductive returned (A : Type) : Type :=
| Return (value : A)
| Raised (e : exn).
Arguments Return {A} value.
Arguments Raised {A} e.

(** The main process as [done] changes it: the refs written to the
    project files (newest first, by source id), the warnings issued by
    sources, the context's message depth stack, and the number of calls
    to [element._update_state()]. *)
Record Main : Type := mkMain {
  saved_refs : list (Z * pyobj);
  warnings : list (Z * string * string);
  message_depth : list bool;
  state_updates : nat
}.

Section Sources.

(** [source._save_ref(new_ref)] raises [SourceError] for some sources
    and refs: [save_error id ref] is then the text of the error. *)
Variable save_error : Z -> pyobj -> option string.

(** [status(element)], from the list [element.sources()] *)
Definition status (sources : list Z) : QueueStatus :=
  match sources with
  | [] => SKIP
  | _ => READY
  end.

(** One turn of [for unique_id, new_ref in result] *)
Definition save (entry : Z * pyobj) (m : Main) : Main :=
  let '(unique_id, new_ref) := entry in
  match save_error unique_id new_ref with
  | None =>
      mkMain ((unique_id, new_ref) :: saved_refs m) (warnings m)
             (message_depth m) (state_updates m)
  | Some e =>
      mkMain (saved_refs m)
             (warnings m
                ++ [(unique_id, "Failed to update project file", e)%string])
             (message_depth m) (state_updates m)
  end.

(** [done(element, result, returncode)]; [result] is [None] or the
    list of pairs [element._track()] returned; the local [changed] is
    threaded through the loop as the code has it. *)
Definition done (result : option (list (Z * pyobj))) (returncode : Z)
           (m : Main) : Main * returned bool :=
  if negb (returncode =? 0) then (m, Return false)
  else
    let changed := false in
    match result with
    | None => (m, Raised TypeError)
    | Some result =>
        let '(m, changed) :=
          fold_left (fun (st : Main * bool) entry =>
                       (save entry (fst st), snd st))
                    result (m, changed) in
        let m := mkMain (saved_refs m) (warnings m)
                        (true :: message_depth m) (state_updates m) in
        let m := mkMain (saved_refs m) (warnings m)
                        (message_depth m) (S (state_updates m)) in
        let m := mkMain (saved_refs m) (warnings m)
                        (tl (message_depth m)) (state_updates m) in
        (m, Return changed)
    end.

End Sources.

End TrackQueue.

(* ================================================================== *)
(** ** _stream.py: [Stream.build] *)

Module Stream.

(** The queue classes [build] instantiates, by action. *)
Inductive QueueClass : Type := Track | Pull | Fetch | Build | Push.

Scheme Equality for QueueClass.

(** A queue as [build] leaves it: its class, the [skip_cached] it was
    constructed with, and the elements enqueued. *)
Record Queue : Type := mkQueue {
  class : QueueClass;
  skip_cached : bool;
  enqueued : list Z
}.

Definition new (c : QueueClass) : Queue := mkQueue c false [].

Definition enqueue (elts : list Z) (q : Queue) : Queue :=
  mkQueue (class q) (skip_cached q) (enqueued q ++ elts).

(** [queues[i].enqueue(elts)] *)
Fixpoint enqueue_at (i : nat) (elts : list Z) (queues : list Queue)
  : list Queue :=
  match i, queues with
  | _, [] => []
  | O, q :: rest => enqueue elts q :: rest
  | S i, q :: rest => q :: enqueue_at i elts rest
  end.

(** What [build] reads of [self._pipeline]; elements are known by their
    identity. *)
Record Pipeline : Type := {
  _track_elements : list Z;
  dependencies_all : list Z;     (* [dependencies(Scope.ALL)] *)
  _plan : list Z;                (* [_plan(except_=False)] *)
  _assert_consistent : list Z -> bool;   (* [false]: it raises *)
  has_fetch_remotes : bool;
  has_push_remotes : bool
}.

Inductive SchedStatus : Type := SUCCESS | ERROR | TERMINATED.

Definition nonempty {A : Type} (l : list A) : bool :=
  match l with [] => false | _ => true end.

(** Lines 139 to 164 of [build]: the queues with their elements. *)
Definition build_queues (pipeline : Pipeline) (plan : list Z) : list Queue :=
  let fetch := mkQueue Fetch true [] in
  let build := new Build in
  let track : option Queue := None in
  let queues : list Queue := [] in
  let '(track, queues) :=
    if nonempty (_track_elements pipeline)
    then (Some (new Track), queues ++ [new Track])
    else (track, queues) in
  let queues :=
    if has_fetch_remotes pipeline then queues ++ [new Pull] else queues in
  let queues := queues ++ [fetch] in
  let queues := queues ++ [build] in
  let queues :=
    if has_push_remotes pipeline then queues ++ [new Push] else queues in
  match track with
  | Some _ =>
      enqueue_at 1 plan (enqueue_at 0 (_track_elements pipeline) queues)
  | None => enqueue_at 0 plan queues
  end.

Inductive built : Type :=
| Ran (queues : list Queue) (session_elements : Z)
| PipelineError
| StreamError (terminated : bool) (queues : list Queue).

(** [build(scheduler, build_all=...)]; [run] is [self._scheduler.run]. *)
Definition build (run : list Queue -> SchedStatus) (pipeline : Pipeline)
           (build_all : bool) : built :=
  let plan := if build_all then dependencies_all pipeline
              else _plan pipeline in
  let plan := filter (fun e => negb (existsb (Z.eqb e)
                                             (_track_elements pipeline)))
                     plan in
  if negb (_assert_consistent pipeline plan) then PipelineError
  else
    let queues := build_queues pipeline plan in
    let session_elements :=
      Z.of_nat (List.length (_track_elements pipeline))
      + Z.of_nat (List.length plan) in
    match run queues with
    | ERROR => StreamError false queues
    | TERMINATED => StreamError true queues
    | SUCCESS => Ran queues session_elements
    end.

Inductive Consistency : Type := INCONSISTENT | RESOLVED | CACHED.

Scheme Equality for Consistency.

(** [fetch(scheduler, dependencies)]; [_get_consistency] is the method
    of the elements. *)
Definition fetch (run : list Queue -> SchedStatus)
           (_get_consistency : Z -> Consistency) (pipeline : Pipeline)
           (dependencies : list Z) : built :=
  let fetch_plan := dependencies in
  let fetch_plan :=
    if nonempty (_track_elements pipeline)
    then filter (fun e => negb (existsb (Z.eqb e) (_track_elements pipeline)))
                fetch_plan
    else fetch_plan in
  if negb (_assert_consistent pipeline fetch_plan) then PipelineError
  else
    let cached :=
      filter (fun elt => Consistency_beq (_get_consistency elt) CACHED)
             fetch_plan in
    let fetch_plan :=
      filter (fun elt => negb (existsb (Z.eqb elt) cached)) fetch_plan in
    let session_elements :=
      Z.of_nat (List.length (_track_elements pipeline))
      + Z.of_nat (List.length fetch_plan) in
    let fetch := enqueue fetch_plan (new Fetch) in
    let queues :=
      if nonempty (_track_elements pipeline)
      then [enqueue (_track_elements pipeline) (new Track); fetch]
      else [fetch] in
    match run queues with
    | ERROR => StreamError false queues
    | TERMINATED => StreamError true queues
    | SUCCESS => Ran queues session_elements
    end.

End Stream.

(* ================================================================== *)
(** ** Observations used in the statements *)

Import Job.

(** The values of the [result] envelopes of a queue content, in order. *)
Definition results (q : list Envelope) : list pyobj :=
  flat_map (fun e => match e with EResult v => [v] | _ => [] end) q.

(** The values of the [workspace] envelopes of a queue content, in order. *)
Definition workspaces (q : list Envelope) : list pyobj :=
  flat_map (fun e => match e with EWorkspace v => [v] | _ => [] end) q.

(** The assignments a listening parent makes when it reads [q]. *)
Definition assignments (q : list Envelope) : list Event :=
  flat_map (fun e => match e with
                     | EResult v => [AssignResult v]
                     | EWorkspace v => [AssignWorkspace v]
                     | _ => []
                     end) q.

(** An envelope with one of the four tags of the worker. *)
Definition known (e : Envelope) : bool :=
  match e with EOther _ _ => false | _ => true end.

Definition state_of (o : outcome) : Parent :=
  match o with Ok p => p | Raise _ p => p end.

(** The exit code of a worker whose action ends with [f]. *)
Definition exit_code (f : finish) : Z :=
  match f with Returns _ => 0 | Raises _ => 1 end.

(** The arguments [complete_cb] gets when the last worker's action ended
    with [f]: [success], and the value returned or [None]. *)
Definition reported (f : finish) : bool * pyobj :=
  match f with Returns v => (true, v) | Raises _ => (false, PyNone) end.

(** Calls of [suspend] and [resume] made by the scheduler on one job,
    each with what [os.kill] finds. *)
Inductive call : Type :=
| Suspend (found : bool)
| Resume (silent found : bool).

Definition perform (p : Parent) (c : call) : Parent :=
  match c with
  | Suspend found => state_of (suspend found p)
  | Resume silent found => state_of (resume silent found p)
  end.

Definition stops_sent (l : list (Z * signal)) : Z :=
  Z.of_nat (List.length (filter (fun s => signal_beq (snd s) SIGTSTP) l)).

(** The messages and the errors of a queue content, in order. *)
Definition messages (q : list Envelope) : list Message :=
  flat_map (fun e => match e with EMessage m => [m] | _ => [] end) q.

Definition errors (q : list Envelope) : list (option string * option string) :=
  flat_map (fun e => match e with EError d r => [(d, r)] | _ => [] end) q.

(** [carries t e]: [e] is a message envelope of type [t]. *)
Definition carries (t : MessageType) (e : Envelope) : bool :=
  match e with
  | EMessage m => MessageType_beq (Message.message_type m) t
  | _ => false
  end.

(** What the worker's handler lets through for the job [j]: no [LOG]
    message, and no [FAIL] message while [tries <= max_retries]. *)
Definition passes (j : Job) (e : Envelope) : bool :=
  negb (carries LOG e)
  && negb ((tries j <=? max_retries j) && carries FAIL e).

(** The parent with other envelopes waiting on the queue. *)
Definition requeue (q : list Envelope) (p : Parent) : Parent :=
  set_job (set_queue q (job p)) p.

Definition conts_sent (l : list (Z * signal)) : Z :=
  Z.of_nat (List.length (filter (fun s => signal_beq (snd s) SIGCONT) l)).

(** The type of the message a worker ends with. *)
Definition final_type (f : finish) : MessageType :=
  match f with
  | Returns _ => SUCCESS
  | Raises (OfBstError _) => FAIL
  | Raises (OfException _) => BUG
  end.

(** The elements enqueued in the queues of one class. *)
Definition enqueued_in (c : Stream.QueueClass) (queues : list Stream.Queue)
  : list Z :=
  flat_map (fun q => if Stream.QueueClass_beq (Stream.class q) c
                     then Stream.enqueued q else [])
           queues.

(** The envelopes [child_send_workspace] and [child_send_result] put. *)
Definition sent_workspace (workspace : option pyobj) : list Envelope :=
  match workspace with Some d => [EWorkspace d] | None => [] end.

Definition sent_result (v : pyobj) : list Envelope :=
  if is_None v then [] else [EResult v].

(** The [SUCCESS] message of a worker, with the tags of the handler. *)
Definition success_message (forked : Job) : Message :=
  Message.tag (action_name forked)
    (Element._get_unique_id (element forked))
    (new_message (element forked) SUCCESS (action_name forked) None).

(** An element with an open workspace, for the examples. *)
Definition an_element : Element :=
  Element.mk "base.bst" 7
             (Some (PyDict [("path"%string, PyStr "/src")])) "PATH: /bin".

(** Workers for the examples: an action that fails with a domain
    error, one that hits a bug, one that returns a value; all leave the
    element's workspace open. *)
Definition a_run (f : finish) : Run :=
  {| emitted := []; finished := f;
     workspace := Some (PyDict [("path"%string, PyStr "/src")]);
     silent_messages := false |}.

Definition a_worker (f : finish) : Worker :=
  {| worker_pid := 4000; worker_run := a_run f; worker_silent := false;
     worker_early := 1 |}.

Definition domain_failure : finish :=
  Raises (OfBstError {| err_str := "fetch failed"; err_detail := None;
                        err_domain := Some "source"%string;
                        err_reason := None |}).

Definition bug : finish := Raises (OfException "KeyError").

(** Every worker fails with a domain error; every worker hits a bug; the
    first worker fails and the next ones return a value. *)
Definition failing_world (n : Z) : Worker := a_worker domain_failure.

Definition buggy_world (n : Z) : Worker := a_worker bug.


(** A parent whose worker returned ["ref"], and which calls
    [terminate()] before the child watcher reports the exit: in
    [read_then_terminated] the result envelope was read through
    [parent_recv] first, in [terminated_unread] the worker's envelopes are
    still on the queue. *)
Definition spawned (N : Z) : Parent :=
  spawn 4000 (start (__init__ an_element "Build" N)).

Definition delivered_ref (N : Z) : list Envelope :=
  sent (fst (child_action [] false (job (spawned N))
               (a_run (Returns (PyStr "ref"))))).

Definition read_then_terminated (N : Z) : Parent :=
  state_of (terminate true true
              (state_of (parent_recv (requeue (delivered_ref N) (spawned N))))).

Definition terminated_unread (N : Z) : Parent :=
  requeue (delivered_ref N) (state_of (terminate true true (spawned N))).

(** The number a decimal field stands for. *)
Definition read_decimal (s : string) : option Z :=
  option_map Z.of_int (NilZero.int_of_string s).

(* ================================================================== *)
(** ** Properties *)

(** *** The parent, one envelope at a time *)

(** C10. An envelope processed while [listening] is [False] changes
    nothing in the parent: no message reaches the context, the last task
    error is not set, [result] and [workspace_dict] keep their values (the
    whole state is the same). *)
Theorem parent_process_envelope_not_listening :
  forall (envelope : Envelope) (p : Parent),
    listening (job p) = false ->
    parent_process_envelope envelope p = Ok p.
Proof.
  intros envelope p H. unfold parent_process_envelope.
  rewrite H. reflexivity.
Qed.

Lemma parent_process_envelope_not_listening_witness :
  parent_process_envelope (EResult (PyInt 3))
    (start (__init__ an_element "Build" 2))
  = Ok (start (__init__ an_element "Build" 2)).
Proof.
  apply (parent_process_envelope_not_listening (EResult (PyInt 3))
           (start (__init__ an_element "Build" 2))).
  reflexivity.
Defined.

(** *** The worker's message handler *)

Lemma child_message_handler_self :
  forall um silent m c, self (child_message_handler um silent m c) = self c.
Proof.
  intros. unfold child_message_handler.
  repeat match goal with |- context [if ?b then _ else _] => destruct b end;
    reflexivity.
Qed.

(** C7. In [child_message_handler], a message of type [FAIL] handled
    while [tries <= max_retries] goes to the parent with type [WARN]; a
    message of any other type, and a [FAIL] on the last try, goes with its
    own type.  The call puts at most one envelope: a [message] envelope
    whose message has that type and otherwise the fields of the handled
    message with the handler's two tags; it puts one whenever messages are
    not silenced and the type is not [LOG].  The line logged before
    keeps the type of the handled message. *)
Theorem child_message_handler_retype :
  forall (um : list MessageType) (silent : bool) (m : Message) (c : Child),
    let t := if MessageType_beq (Message.message_type m) FAIL
                && (tries (self c) <=? max_retries (self c))
             then WARN else Message.message_type m in
    let forwards m' :=
      sent (child_message_handler um silent m c) = sent c ++ [EMessage m']
      /\ Message.message_type m' = t
      /\ Message.unique_id m' = Message.unique_id m
      /\ Message.message m' = Message.message m
      /\ Message.detail m' = Message.detail m
      /\ Message.scheduler m' = Message.scheduler m
      /\ Message.action_name m' = Some (action_name (self c))
      /\ Message.task_id m'
         = Some (Element._get_unique_id (element (self c))) in
    (Message.message_type m = FAIL ->
     tries (self c) <= max_retries (self c) -> t = WARN)
    /\ (Message.message_type m <> FAIL -> t = Message.message_type m)
    /\ (max_retries (self c) < tries (self c) -> t = Message.message_type m)
    /\ (sent (child_message_handler um silent m c) = sent c
        \/ exists m', forwards m')
    /\ (silent = false -> t <> LOG -> exists m', forwards m')
    /\ (exists line,
           logfile (child_message_handler um silent m c)
           = logfile c ++ [line]
           /\ Message.message_type line = Message.message_type m).
Proof.
  intros um silent m c t forwards.
  set (tagged := Message.tag (action_name (self c))
                   (Element._get_unique_id (element (self c))) m).
  assert (Ht : (if MessageType_beq (Message.message_type m) FAIL
                   && (tries (self c) <=? max_retries (self c))
                then Message.set_message_type WARN tagged else tagged)
               = Message.set_message_type t tagged).
  { subst t tagged. destruct (_ && _); destruct m; reflexivity. }
  assert (Hrun : child_message_handler um silent m c
                 = if (silent
                       && negb (existsb (MessageType_beq t) um))
                      || MessageType_beq t LOG
                   then child_log tagged c
                   else put (EMessage (Message.set_message_type t tagged))
                            (child_log tagged c)).
  { unfold child_message_handler. cbv zeta. fold tagged.
    change (self (child_log tagged c)) with (self c).
    change (Message.message_type tagged) with (Message.message_type m).
    rewrite Ht.
    change (Message.message_type (Message.set_message_type t tagged)) with t.
    destruct (silent && _); [reflexivity|].
    destruct (MessageType_beq t LOG); reflexivity. }
  set (cond := (silent && negb (existsb (MessageType_beq t) um))
               || MessageType_beq t LOG) in Hrun.
  assert (Hfw : cond = false ->
                forwards (Message.set_message_type t tagged)).
  { intros Hc. subst forwards. cbv beta. rewrite Hrun, Hc.
    repeat split. }
  split; [|split; [|split; [|split; [|split]]]].
  - intros Hfail Hle. subst t. rewrite Hfail.
    apply Z.leb_le in Hle. rewrite Hle. reflexivity.
  - intros Hne. subst t.
    destruct (MessageType_beq (Message.message_type m) FAIL) eqn:E;
      [|reflexivity].
    exfalso. apply Hne. destruct (Message.message_type m); now inversion E.
  - intros Hlast. subst t. apply Z.leb_gt in Hlast. rewrite Hlast.
    now rewrite andb_false_r.
  - destruct cond eqn:Ec.
    + left. rewrite Hrun. reflexivity.
    + right. exists (Message.set_message_type t tagged). now apply Hfw.
  - intros Hs Hlog. exists (Message.set_message_type t tagged). apply Hfw.
    subst cond. rewrite Hs. simpl.
    destruct (MessageType_beq t LOG) eqn:E; [|reflexivity].
    exfalso. apply Hlog. destruct t; now inversion E.
  - exists tagged. split; [|reflexivity]. rewrite Hrun.
    destruct cond; reflexivity.
Qed.

Lemma child_message_handler_retype_witness :
  exists m',
    sent (child_message_handler [] false
            (new_message an_element FAIL "fetch failed" None)
            (mkChild (set_tries 1 (__init__ an_element "Fetch" 2)) [] []))
    = [] ++ [EMessage m']
    /\ Message.message_type m' = WARN.
Proof.
  destruct (child_message_handler_retype [] false
              (new_message an_element FAIL "fetch failed" None)
              (mkChild (set_tries 1 (__init__ an_element "Fetch" 2)) [] []))
    as (Hwarn & _ & _ & _ & Hput & _).
  destruct Hput as [m' (Hs & Ht & _)].
  - reflexivity.
  - rewrite Hwarn; [discriminate | reflexivity | simpl; lia].
  - exists m'. split; [exact Hs|]. rewrite Ht. apply Hwarn.
    + reflexivity.
    + simpl. lia.
Defined.

(** *** Suspending a job *)

Lemma suspend_stops :
  forall found p,
    internal_stops (state_of (suspend found p)) - internal_stops p
    = stops_sent (signals (state_of (suspend found p)))
      - stops_sent (signals p).
Proof.
  intros found p. unfold suspend.
  destruct (suspended (job p)); simpl; [lia|].
  destruct (process (job p)) as [child|]; simpl; [|lia].
  destruct found; simpl; [|lia].
  unfold stops_sent. rewrite filter_app, length_app. simpl. lia.
Qed.

Lemma resume_stops :
  forall silent found p,
    internal_stops (state_of (resume silent found p)) - internal_stops p
    = stops_sent (signals (state_of (resume silent found p)))
      - stops_sent (signals p).
Proof.
  intros silent found p. unfold resume.
  destruct (suspended (job p)); simpl; [|lia].
  destruct silent, found; simpl;
    destruct (process (job p)) as [child|]; simpl;
    unfold stops_sent; try rewrite filter_app, length_app; simpl; lia.
Qed.

Lemma perform_stops :
  forall calls p,
    internal_stops (fold_left perform calls p) - internal_stops p
    = stops_sent (signals (fold_left perform calls p))
      - stops_sent (signals p).
Proof.
  induction calls as [|c calls IH]; intros p; simpl; [lia|].
  specialize (IH (perform p c)).
  assert (H : internal_stops (perform p c) - internal_stops p
              = stops_sent (signals (perform p c)) - stops_sent (signals p)).
  { destruct c; simpl; [apply suspend_stops | apply resume_stops]. }
  lia.
Qed.

(** C6. [suspend()] on a job already suspended changes nothing.  On a
    job not suspended whose process [os.kill] finds, one [SIGTSTP] is
    sent, [internal_stops] grows by exactly one and [suspended] becomes
    true.  When the process no longer exists, no signal is sent and
    neither the counter nor the flag changes.  Hence, over any sequence
    of [suspend] and [resume] calls, the counter grew by the number of
    [SIGTSTP] signals sent. *)
Theorem suspend_counts_signals_sent :
  forall (p : Parent),
    (forall found, suspended (job p) = true -> suspend found p = Ok p)
    /\ (forall child,
           suspended (job p) = false -> process (job p) = Some child ->
           exists p', suspend true p = Ok p'
                      /\ internal_stops p' = internal_stops p + 1
                      /\ suspended (job p') = true
                      /\ signals p' = signals p ++ [(child, SIGTSTP)])
    /\ (forall child,
           suspended (job p) = false -> process (job p) = Some child ->
           exists p', suspend false p = Ok p'
                      /\ internal_stops p' = internal_stops p
                      /\ suspended (job p') = false
                      /\ signals p' = signals p)
    /\ (forall calls,
           internal_stops (fold_left perform calls p) - internal_stops p
           = stops_sent (signals (fold_left perform calls p))
             - stops_sent (signals p)).
Proof.
  intros p. repeat split.
  - intros found H. unfold suspend. rewrite H. reflexivity.
  - intros child Hs Hp. unfold suspend. rewrite Hs. simpl.
    rewrite Hp. eexists. split; [reflexivity|]. simpl. auto.
  - intros child Hs Hp. unfold suspend. rewrite Hs. simpl.
    rewrite Hp. eexists. split; [reflexivity|]. simpl. auto.
  - intros calls. apply perform_stops.
Qed.

Lemma suspend_counts_signals_sent_witness :
  exists p',
    suspend true (spawn 4000 (start (__init__ an_element "Build" 0))) = Ok p'
    /\ internal_stops p' = 0 + 1
    /\ suspended (job p') = true
    /\ signals p' = [] ++ [(4000, SIGTSTP)].
Proof.
  exact (proj1 (proj2 (suspend_counts_signals_sent
                         (spawn 4000 (start (__init__ an_element "Build" 0)))))
               4000 eq_refl eq_refl).
Defined.

(** *** The queues of a build *)

(** C8. The queues [build] assembles and hands to the scheduler hold a
    pull queue exactly when the artifact cache has fetch remotes and a
    push queue exactly when it has push remotes, in the order Track (when
    there are elements to track), Pull (when present), Fetch, Build, Push
    (when present). *)
Theorem build_queues_order :
  forall (run : list Stream.Queue -> Stream.SchedStatus)
         (pipeline : Stream.Pipeline) (plan : list Z) (build_all : bool),
    let expected :=
      (if Stream.nonempty (Stream._track_elements pipeline)
       then [Stream.Track] else [])
        ++ (if Stream.has_fetch_remotes pipeline then [Stream.Pull] else [])
        ++ [Stream.Fetch; Stream.Build]
        ++ (if Stream.has_push_remotes pipeline then [Stream.Push] else []) in
    let classes := map Stream.class (Stream.build_queues pipeline plan) in
    existsb (Stream.QueueClass_beq Stream.Pull) classes
    = Stream.has_fetch_remotes pipeline
    /\ existsb (Stream.QueueClass_beq Stream.Push) classes
       = Stream.has_push_remotes pipeline
    /\ classes = expected
    /\ match Stream.build run pipeline build_all with
       | Stream.Ran queues _ => map Stream.class queues = expected
       | Stream.StreamError _ queues => map Stream.class queues = expected
       | Stream.PipelineError => True
       end.
Proof.
  intros run pipeline plan build_all expected classes.
  assert (H : forall plan,
             map Stream.class (Stream.build_queues pipeline plan) = expected).
  { intros plan'. subst expected. unfold Stream.build_queues.
    destruct (Stream.nonempty (Stream._track_elements pipeline)),
      (Stream.has_fetch_remotes pipeline), (Stream.has_push_remotes pipeline);
      reflexivity. }
  subst classes. rewrite H. subst expected. repeat split.
  - destruct (Stream.nonempty (Stream._track_elements pipeline)),
      (Stream.has_fetch_remotes pipeline), (Stream.has_push_remotes pipeline);
      reflexivity.
  - destruct (Stream.nonempty (Stream._track_elements pipeline)),
      (Stream.has_fetch_remotes pipeline), (Stream.has_push_remotes pipeline);
      reflexivity.
  - unfold Stream.build.
    destruct (negb (Stream._assert_consistent pipeline _)); [exact I|].
    destruct (run _); apply H.
Qed.

(** *** Tracking *)

Lemma track_loop_changed :
  forall save_error refs m changed,
    snd (fold_left (fun (st : TrackQueue.Main * bool) entry =>
                      (TrackQueue.save save_error entry (fst st), snd st))
                   refs (m, changed)) = changed.
Proof.
  intros save_error refs.
  induction refs as [|entry refs IH]; intros m changed; simpl;
    [reflexivity | apply IH].
Qed.

(** C9. [TrackQueue.done] returns [False] for every return code and
    every result list, also one whose refs were all saved: [changed] is
    [False] after the loop as before it.  A result that is [None] (what a
    failed job hands over) is never looked at on a nonzero return code;
    only the pair of [None] and a zero return code, which a track job does
    not produce, makes the loop raise.  In no case is [True] returned. *)
Theorem done_returns_false :
  forall (save_error : Z -> pyobj -> option string)
         (returncode : Z) (m : TrackQueue.Main),
    (forall refs,
        snd (TrackQueue.done save_error (Some refs) returncode m)
        = TrackQueue.Return false)
    /\ (forall result,
           snd (TrackQueue.done save_error result returncode m)
           = if (returncode =? 0) && negb (match result with
                                            | Some _ => true
                                            | None => false
                                            end)
             then TrackQueue.Raised TypeError
             else TrackQueue.Return false)
    /\ (forall result,
           snd (TrackQueue.done save_error result returncode m)
           <> TrackQueue.Return true).
Proof.
  intros save_error returncode m.
  assert (H : forall refs,
             snd (TrackQueue.done save_error (Some refs) returncode m)
             = TrackQueue.Return false).
  { intros refs. unfold TrackQueue.done.
    destruct (negb (returncode =? 0)); [reflexivity|].
    pose proof (track_loop_changed save_error refs m false) as Hc.
    destruct (fold_left _ refs (m, false)) as [m' changed].
    simpl in Hc. subst changed. reflexivity. }
  split; [exact H|]. split.
  - intros [refs|].
    + rewrite H. now rewrite andb_false_r.
    + unfold TrackQueue.done. destruct (returncode =? 0); reflexivity.
  - intros [refs|].
    + rewrite H. discriminate.
    + unfold TrackQueue.done.
      destruct (negb (returncode =? 0)); simpl; discriminate.
Qed.

(** *** What a worker puts on the queue *)

Lemma child_message_handler_sent :
  forall um silent m c,
  exists l, sent (child_message_handler um silent m c)
            = sent c ++ map EMessage l.
Proof.
  intros. unfold child_message_handler.
  match goal with |- context [EMessage ?x] => set (m' := x) end.
  destruct (silent && _); [exists []; simpl; now rewrite app_nil_r|].
  destruct (MessageType_beq _ LOG);
    [exists []; simpl; now rewrite app_nil_r | exists [m']; reflexivity].
Qed.

Lemma emitted_sent :
  forall um (l : list (Message * bool)) c,
    let c' := fold_left (fun c ms => child_message_handler um (snd ms) (fst ms) c)
                        l c in
    self c' = self c /\ exists ms, sent c' = sent c ++ map EMessage ms.
Proof.
  intros um l. induction l as [|[m s] l IH]; intros c; simpl.
  - split; [reflexivity|]. exists []. simpl. now rewrite app_nil_r.
  - destruct (IH (child_message_handler um s m c)) as [Hs [ms Hm]].
    destruct (child_message_handler_sent um s m c) as [l0 Hl0].
    split.
    + rewrite Hs. apply child_message_handler_self.
    + exists (l0 ++ ms). rewrite Hm, Hl0, map_app, app_assoc. reflexivity.
Qed.

Lemma child_send_workspace_sent :
  forall w c, sent (child_send_workspace w c) = sent c ++ sent_workspace w.
Proof.
  intros [d|] c; simpl; [reflexivity | now rewrite app_nil_r].
Qed.

Lemma child_send_result_sent :
  forall v c, sent (child_send_result v c) = sent c ++ sent_result v.
Proof.
  intros v c. unfold child_send_result, sent_result.
  destruct (is_None v); simpl; [now rewrite app_nil_r | reflexivity].
Qed.

(** The messages a worker forwards before its action ends. *)
Lemma child_action_prologue :
  forall um silent forked run,
    let c := fold_left
               (fun c ms => child_message_handler um (snd ms) (fst ms) c)
               (emitted run)
               (child_message um silent LOG
                  ("Build environment for element "
                     ++ Element.name (element forked))
                  (Some (Element.environment (element forked)))
                  (child_message um silent START (action_name forked) None
                     (mkChild forked [] []))) in
    self c = forked /\ exists ms, sent c = map EMessage ms.
Proof.
  intros um silent forked run. cbv zeta.
  match goal with |- context [fold_left ?f ?l ?c0] =>
    destruct (emitted_sent um l c0) as [Hs [ms Hm]] end.
  cbv zeta in Hs, Hm. split.
  - rewrite Hs. unfold child_message.
    now rewrite !child_message_handler_self.
  - rewrite Hm. unfold child_message.
    match goal with |- context [child_message_handler um silent ?m2
                                  (child_message_handler um silent ?m1 ?c0)] =>
      destruct (child_message_handler_sent um silent m2
                  (child_message_handler um silent m1 c0)) as [l2 H2];
      destruct (child_message_handler_sent um silent m1 c0) as [l1 H1] end.
    exists (l1 ++ l2 ++ ms). rewrite H2, H1. simpl.
    now rewrite !map_app, app_assoc.
Qed.

(** C5. A worker whose action returns [v] puts on the queue, after the
    messages forwarded so far: the workspace envelope if the element has
    a workspace, then the result envelope exactly when [v] is not [None],
    then the [SUCCESS] message (always logged; forwarded unless messages
    are silenced and [SUCCESS] is not unconditional); it puts no error
    envelope and exits with code 0. *)
Theorem child_action_success :
  forall (um : list MessageType) (silent : bool) (forked : Job) (run : Run)
         (v : pyobj),
    finished run = Returns v ->
    let c := fst (child_action um silent forked run) in
    snd (child_action um silent forked run) = 0
    /\ exists before log,
         sent c = map EMessage before
                    ++ sent_workspace (workspace run)
                    ++ (if is_None v then [] else [EResult v])
                    ++ (if silent_messages run
                           && negb (existsb (MessageType_beq SUCCESS) um)
                        then [] else [EMessage (success_message forked)])
         /\ logfile c = log ++ [success_message forked]
         /\ Message.message_type (success_message forked) = SUCCESS
         /\ Forall (fun e => message_type e <> "error"%string) (sent c).
Proof.
  intros um silent forked run v Hv. unfold child_action. rewrite Hv.
  destruct (child_action_prologue um silent forked run) as [Hself [ms Hms]].
  cbv zeta in Hself, Hms |- *.
  match type of Hself with self ?x = _ => set (c0 := x) in * end.
  unfold child_shutdown. simpl fst. simpl snd. split; [reflexivity|].
  assert (Hsent :
    sent (child_message um (silent_messages run) SUCCESS (action_name forked)
            None (child_send_result v
                    (child_send_workspace (workspace run) c0)))
    = map EMessage ms ++ sent_workspace (workspace run)
        ++ (if is_None v then [] else [EResult v])
        ++ (if silent_messages run
               && negb (existsb (MessageType_beq SUCCESS) um)
            then [] else [EMessage (success_message forked)])).
  { unfold child_message, child_message_handler.
    assert (Hs : self (child_send_result v
                         (child_send_workspace (workspace run) c0)) = forked).
    { unfold child_send_result, child_send_workspace.
      destruct (negb (is_None v)), (workspace run); simpl; exact Hself. }
    rewrite Hs. simpl MessageType_beq. simpl andb. cbv iota.
    simpl Message.message_type. fold (success_message forked).
    destruct (silent_messages run && _); simpl sent;
      rewrite child_send_result_sent, child_send_workspace_sent, Hms;
      unfold sent_result; rewrite <- !app_assoc; try reflexivity.
    now rewrite app_nil_r. }
  exists ms.
  eexists. split; [exact Hsent|]. split; [|split; [reflexivity|]].
  - unfold child_message, child_message_handler.
    match goal with |- context [if ?b then _ else _] => destruct b end;
      simpl logfile; f_equal;
      try (f_equal; unfold success_message; f_equal;
           unfold child_send_result, child_send_workspace;
           destruct (negb (is_None v)), (workspace run); simpl;
           now rewrite Hself).
  - rewrite Hsent. repeat (apply Forall_app; split).
    + apply Forall_forall. intros e He. apply in_map_iff in He.
      destruct He as [m [<- _]]. discriminate.
    + destruct (workspace run); repeat constructor; discriminate.
    + destruct (is_None v); repeat constructor; discriminate.
    + destruct (_ && _); repeat constructor; discriminate.
Qed.

Lemma child_action_exit_code :
  forall um silent forked run,
    snd (child_action um silent forked run) = exit_code (finished run).
Proof.
  intros. unfold child_action.
  destruct (finished run) as [v|[e|tb]]; reflexivity.
Qed.

(** The queue content a worker leaves, by the way its action ends. *)
Lemma child_action_sent :
  forall um silent forked run,
  exists before after,
    sent (fst (child_action um silent forked run))
    = map EMessage before
        ++ match finished run with
           | Returns v =>
               sent_workspace (workspace run) ++ sent_result v
                 ++ map EMessage after
           | Raises (OfBstError e) =>
               map EMessage after ++ sent_workspace (workspace run)
                 ++ [EError (err_domain e) (err_reason e)]
           | Raises (OfException _) => map EMessage after
           end.
Proof.
  intros um silent forked run. unfold child_action.
  destruct (child_action_prologue um silent forked run) as [Hself [ms Hms]].
  cbv zeta in Hself, Hms |- *.
  match type of Hself with self ?x = _ => set (c0 := x) in * end.
  exists ms.
  destruct (finished run) as [v|[e|tb]]; unfold child_shutdown; simpl fst.
  - unfold child_message.
    match goal with |- context [child_message_handler um ?s ?m ?c] =>
      destruct (child_message_handler_sent um s m c) as [l Hl] end.
    exists l. rewrite Hl, child_send_result_sent, child_send_workspace_sent, Hms.
    now rewrite <- !app_assoc.
  - unfold child_send_error. cbv iota beta. unfold put. simpl sent.
    rewrite child_send_workspace_sent. unfold child_message.
    destruct (tries forked <=? max_retries forked);
      match goal with |- context [child_message_handler um ?s ?m ?c] =>
        destruct (child_message_handler_sent um s m c) as [l Hl] end;
      exists l; rewrite Hl, Hms; now rewrite <- !app_assoc.
  - unfold child_message.
    match goal with |- context [child_message_handler um ?s ?m ?c] =>
      destruct (child_message_handler_sent um s m c) as [l Hl] end.
    exists l. now rewrite Hl, Hms.
Qed.

Lemma results_app : forall a b, results (a ++ b) = results a ++ results b.
Proof. intros. apply flat_map_app. Qed.

Lemma workspaces_app :
  forall a b, workspaces (a ++ b) = workspaces a ++ workspaces b.
Proof. intros. apply flat_map_app. Qed.

Lemma assignments_app :
  forall a b, assignments (a ++ b) = assignments a ++ assignments b.
Proof. intros. apply flat_map_app. Qed.

Lemma messages_carry_nothing :
  forall l, results (map EMessage l) = []
            /\ workspaces (map EMessage l) = []
            /\ assignments (map EMessage l) = []
            /\ forallb known (map EMessage l) = true.
Proof.
  induction l as [|m l [H1 [H2 [H3 H4]]]]; simpl; auto.
Qed.

(** What the parent will find in the queue of one worker: known tags
    only, a result exactly when the action returned a value, at most one
    workspace; and the assignments that reading it makes. *)
Lemma child_action_queue :
  forall um silent forked run,
    let q := sent (fst (child_action um silent forked run)) in
    forallb known q = true
    /\ results q = match finished run with
                   | Returns v => if is_None v then [] else [v]
                   | Raises _ => []
                   end
    /\ assignments q
       = match finished run with
         | Returns v =>
             assignments (sent_workspace (workspace run))
               ++ (if is_None v then [] else [AssignResult v])
         | Raises (OfBstError _) => assignments (sent_workspace (workspace run))
         | Raises (OfException _) => []
         end.
Proof.
  intros um silent forked run q. subst q.
  destruct (child_action_sent um silent forked run) as [l1 [l2 H]].
  rewrite H. clear H.
  destruct (messages_carry_nothing l1) as [R1 [W1 [A1 K1]]].
  destruct (messages_carry_nothing l2) as [R2 [W2 [A2 K2]]].
  destruct (finished run) as [v|[e|tb]];
    rewrite ?forallb_app, ?results_app, ?assignments_app,
      ?R1, ?R2, ?A1, ?A2, ?K1, ?K2; simpl.
  - unfold sent_result, sent_workspace.
    destruct (workspace run), (is_None v); simpl; auto.
  - unfold sent_workspace. destruct (workspace run); simpl; auto.
  - auto.
Qed.

(** *** The parent reading a queue *)

(** A listening parent reads a queue of known envelopes to its end,
    provided the queue does not bring a second result. *)
Lemma drain_listening :
  forall q p,
    listening (job p) = true ->
    forallb known q = true ->
    (List.length (results q)
     + (if is_None (result (job p)) then 0 else 1) <= 1)%nat ->
    exists p',
      drain q p = Ok p'
      /\ listening (job p') = true
      /\ queue (job p') = []
      /\ tries (job p') = tries (job p)
      /\ max_retries (job p') = max_retries (job p)
      /\ watcher p' = watcher p
      /\ result (job p') = last (results q) (result (job p))
      /\ trace p' = trace p ++ assignments q.
Proof.
  induction q as [|e q IH]; intros p Hl Hk Hr.
  - simpl. eexists. split; [reflexivity|]. simpl.
    rewrite app_nil_r. repeat split; auto.
  - simpl in Hk. apply andb_prop in Hk. destruct Hk as [Hke Hk].
    simpl drain. unfold parent_process_envelope. simpl listening.
    rewrite Hl. simpl negb. cbv iota.
    destruct e as [m|d r|v|v|t v]; try discriminate; simpl in Hr.
    + edestruct IH as [p' [E H]]; [| exact Hk | | rewrite E; exists p'; split;
        [reflexivity | exact H]]; simpl; assumption.
    + edestruct IH as [p' [E H]]; [| exact Hk | | rewrite E; exists p'; split;
        [reflexivity | exact H]]; simpl; assumption.
    + simpl result. destruct (is_None (result (job p))) eqn:En; [|lia].
      edestruct IH as [p' [E H]]; [| exact Hk | |].
      3:{ rewrite E. exists p'. split; [reflexivity|].
          simpl in H. destruct H as (H1 & H2 & H3 & H4 & H5 & H6 & H7).
          repeat split; try assumption.
          - rewrite H6. change (results (EResult v :: q)) with (v :: results q).
            destruct (results q); [reflexivity | simpl in Hr; lia].
          - rewrite H7. rewrite <- app_assoc. reflexivity. }
      * simpl. assumption.
      * simpl. destruct (is_None v); lia.
    + edestruct IH as [p' [E H]]; [| exact Hk | |].
      3:{ rewrite E. exists p'. split; [reflexivity|].
          simpl in H. destruct H as (H1 & H2 & H3 & H4 & H5 & H6 & H7).
          repeat split; try assumption.
          rewrite H7. rewrite <- app_assoc. reflexivity. }
      * simpl. assumption.
      * simpl. assumption.
Qed.

(** One worker from fork to reaping, seen from a parent that listens,
    holds no result yet and has read everything before. *)
Lemma worker_exit_listening :
  forall um w new_pid p,
    listening (job p) = true ->
    result (job p) = PyNone ->
    queue (job p) = [] ->
    let f := finished (worker_run w) in
    exists p1,
      listening (job p1) = false
      /\ queue (job p1) = []
      /\ tries (job p1) = tries (job p)
      /\ max_retries (job p1) = max_retries (job p)
      /\ watcher p1 = None
      /\ result (job p1) = snd (reported f)
      /\ trace p1
         = trace p
             ++ assignments
                  (sent (fst (child_action um (worker_silent w) (job p)
                                (worker_run w))))
      /\ worker_exit um w new_pid p
         = if negb (exit_code f =? 0) && (tries (job p) <=? max_retries (job p))
           then Ok (spawn new_pid p1)
           else Ok (record (Completed (exit_code f =? 0) (result (job p1))) p1).
Proof.
  intros um w new_pid p Hl Hr Hq f. unfold worker_exit.
  pose proof (child_action_exit_code um (worker_silent w) (job p)
                (worker_run w)) as Hrc.
  destruct (child_action_queue um (worker_silent w) (job p) (worker_run w))
    as [Hk [Hres _]].
  destruct (child_action um (worker_silent w) (job p) (worker_run w))
    as [c rc].
  simpl in Hrc, Hk, Hres |- *. subst rc. fold f in Hres |- *.
  set (k := worker_early w).
  set (q1 := firstn k (sent c)). set (q2 := skipn k (sent c)).
  assert (Hsplit : sent c = q1 ++ q2) by (symmetry; apply firstn_skipn).
  rewrite Hsplit in Hk, Hres |- *.
  rewrite forallb_app in Hk. apply andb_prop in Hk. destruct Hk as [Hk1 Hk2].
  rewrite results_app in Hres. rewrite assignments_app.
  assert (Hlen : (List.length (results q1) + List.length (results q2) <= 1)%nat).
  { rewrite <- length_app, Hres.
    destruct f as [v|e]; [destruct (is_None v)|]; simpl; lia. }
  unfold parent_recv, parent_process_queue. simpl queue. rewrite Hq. simpl app.
  destruct (drain_listening q1
              (set_job (set_queue q1 (job p)) p)) as [pa (Ea & A1 & A2 & A3 & A4 & A5 & A6 & A7)];
    [exact Hl | exact Hk1 | simpl; rewrite Hr; simpl; lia |].
  rewrite Ea. simpl in A3, A4, A5, A6, A7.
  unfold parent_child_completed, parent_shutdown, parent_process_queue.
  simpl queue. rewrite A2. simpl app.
  destruct (drain_listening q2
              (set_watcher None (set_job (set_queue q2 (job pa)) pa)))
    as [pb (Eb & B1 & B2 & B3 & B4 & B5 & B6 & B7)];
    [exact A1 | exact Hk2 | simpl; rewrite A6, Hr |].
  { destruct (results q1) as [|v1 l1]; simpl; [lia|].
    destruct l1; simpl in Hlen |- *; [|lia].
    destruct (is_None v1); lia. }
  simpl in Eb. rewrite Eb. simpl in B3, B4, B5, B6, B7.
  unfold parent_stop_listening. rewrite B1.
  exists (set_job (set_listening false (job pb)) pb).
  simpl. rewrite B3, B4, A3, A4.
  repeat split; try assumption; try reflexivity.
  - rewrite B6, A6, Hr.
    destruct (results q1) as [|v1 [|v1' l1]], (results q2) as [|v2 [|v2' l2]];
      simpl in Hlen, Hres |- *; try lia;
      (destruct f as [v|e]; [destruct v|]; simpl in *; congruence).
  - rewrite B7, A7. now rewrite app_assoc.
Qed.

(** *** Traces *)

Lemma spawns_app : forall a b, spawns (a ++ b) = (spawns a + spawns b)%nat.
Proof. intros. unfold spawns. now rewrite filter_app, length_app. Qed.

Lemma completions_app :
  forall a b, completions (a ++ b) = completions a ++ completions b.
Proof. intros. apply flat_map_app. Qed.

Lemma result_assignments_app :
  forall a b,
    result_assignments (a ++ b)
    = (result_assignments a + result_assignments b)%nat.
Proof. intros. unfold result_assignments. now rewrite filter_app, length_app. Qed.


(** The assignments one worker causes: no spawn, no completion, at most
    one result and none after a failure, at most one workspace. *)
Lemma worker_assignments :
  forall um silent forked run,
    let a := assignments (sent (fst (child_action um silent forked run))) in
    spawns a = 0%nat
    /\ completions a = []
    /\ (result_assignments a <= 1)%nat
    /\ (exit_code (finished run) <> 0 -> result_assignments a = 0%nat)
    /\ (workspace_assignments a <= 1)%nat
    /\ (forall pid rest,
           once_per_worker false (a ++ Spawned pid :: rest)
           = once_per_worker false rest)
    /\ (forall s r, once_per_worker false (a ++ [Completed s r]) = true).
Proof.
  intros um silent forked run a. subst a.
  destruct (child_action_queue um silent forked run) as [_ [_ H]].
  cbv zeta in H. rewrite H. clear H. unfold sent_workspace.
  destruct (finished run) as [v|[e|tb]]; [destruct (is_None v)| |];
    destruct (workspace run); simpl; repeat split; auto; intros; try lia;
    try reflexivity; try contradiction.
Qed.

(** *** A job from spawn to completion *)

(** From a parent that has just spawned a worker, the event loop ends
    after finitely many workers with one call of [complete_cb]:
    every worker before the last exited nonzero with [tries <=
    max_retries]; the last one succeeded or had [tries > max_retries]. *)
Lemma lifetime_running :
  forall um world fuel p,
    listening (job p) = true ->
    result (job p) = PyNone ->
    queue (job p) = [] ->
    watcher p <> None ->
    (Z.to_nat (max_retries (job p) - tries (job p) + 1) + 2 <= fuel)%nat ->
    exists p' tr,
      lifetime um fuel world p = Some (Ok p')
      /\ watcher p' = None
      /\ max_retries (job p') = max_retries (job p)
      /\ tries (job p) <= tries (job p')
      /\ trace p'
         = trace p ++ tr
             ++ [Completed
                   (fst (reported (finished (worker_run (world (tries (job p')))))))
                   (snd (reported (finished (worker_run (world (tries (job p')))))))]
      /\ completions tr = []
      /\ spawns tr = Z.to_nat (tries (job p') - tries (job p))
      /\ (result_assignments tr <= 1)%nat
      /\ (forall s r, once_per_worker false (tr ++ [Completed s r]) = true)
      /\ (forall i, tries (job p) <= i < tries (job p') ->
                    exit_code (finished (worker_run (world i))) <> 0
                    /\ i <= max_retries (job p))
      /\ (exit_code (finished (worker_run (world (tries (job p'))))) = 0
          \/ max_retries (job p) < tries (job p')).
Proof.
  intros um world fuel. induction fuel as [|fuel IH];
    intros p Hl Hr Hq Hw Hfuel; [lia|].
  simpl lifetime. destruct (watcher p) as [wpid|] eqn:Ew; [clear Hw|congruence].
  set (w := world (tries (job p))).
  set (new_pid := worker_pid (world (tries (job p) + 1))).
  destruct (worker_exit_listening um w new_pid p Hl Hr Hq)
    as [p1 (L1 & Q1 & T1 & M1 & W1 & R1 & Tr1 & E)].
  rewrite E. clear E.
  destruct (worker_assignments um (worker_silent w) (job p) (worker_run w))
    as (As & Ac & Ar & Ar0 & _ & Ao & Aoc).
  cbv zeta in As, Ac, Ar, Ar0, Ao, Aoc.
  set (a := assignments _) in *.
  set (f := finished (worker_run w)) in *.
  destruct (negb (exit_code f =? 0) && (tries (job p) <=? max_retries (job p)))
    eqn:Eb.
  - (* the worker failed and is spawned again *)
    apply andb_prop in Eb. destruct Eb as [Ef Et].
    apply negb_true_iff, Z.eqb_neq in Ef. apply Z.leb_le in Et.
    assert (Hfail : snd (reported f) = PyNone).
    { destruct f; [simpl in Ef; congruence | reflexivity]. }
    destruct (IH (spawn new_pid p1)) as [p' [tr H]].
    + unfold spawn, parent_start_listening. simpl. rewrite L1. reflexivity.
    + unfold spawn, parent_start_listening. simpl. rewrite L1. simpl.
      now rewrite R1.
    + unfold spawn, parent_start_listening. simpl. rewrite L1. simpl.
      exact Q1.
    + unfold spawn. simpl. discriminate.
    + unfold spawn, parent_start_listening. simpl. rewrite L1. simpl.
      rewrite T1, M1. lia.
    + destruct H as (E' & W' & M' & T' & Tr' & C' & S' & R' & O' & F' & L').
      assert (Espawn : tries (job (spawn new_pid p1)) = tries (job p) + 1).
      { unfold spawn, parent_start_listening. simpl. rewrite L1. simpl.
        now rewrite T1. }
      assert (Emax : max_retries (job (spawn new_pid p1)) = max_retries (job p)).
      { unfold spawn, parent_start_listening. simpl. rewrite L1. simpl.
        exact M1. }
      assert (Etrace : trace (spawn new_pid p1)
                       = trace p ++ a ++ [Spawned new_pid]).
      { unfold spawn, parent_start_listening. simpl. rewrite L1. simpl.
        rewrite Tr1. now rewrite <- app_assoc. }
      rewrite Espawn in *. rewrite Emax in *.
      exists p', (a ++ Spawned new_pid :: tr).
      split; [exact E'|]. split; [exact W'|]. split; [exact M'|].
      split; [lia|]. split.
      { rewrite Tr', Etrace. rewrite <- !app_assoc. reflexivity. }
      split.
      { rewrite completions_app, Ac. simpl. exact C'. }
      split.
      { rewrite spawns_app, As.
        change (spawns (Spawned new_pid :: tr)) with (S (spawns tr)).
        rewrite S'. lia. }
      split.
      { rewrite result_assignments_app, (Ar0 Ef).
        change (result_assignments (Spawned new_pid :: tr))
          with (result_assignments tr). exact R'. }
      split.
      { intros s r. rewrite <- app_assoc. simpl app. rewrite Ao. apply O'. }
      split.
      { intros i Hi. destruct (Z.eq_dec i (tries (job p))) as [->|Hne].
        - split; [exact Ef | exact Et].
        - apply F'. lia. }
      exact L'.
  - (* the last worker: [complete_cb] is called *)
    destruct fuel as [|fuel]; [lia|]. simpl lifetime. rewrite W1.
    eexists. exists a. split; [reflexivity|]. simpl.
    rewrite T1, M1, Tr1, R1. fold w. fold f.
    split; [exact W1|]. split; [reflexivity|]. split; [lia|]. split.
    { rewrite <- app_assoc. do 3 f_equal. destruct f; reflexivity. }
    split; [exact Ac|]. split; [rewrite As; lia|]. split; [exact Ar|].
    split; [exact Aoc|]. split; [intros i Hi; lia|].
    apply andb_false_iff in Eb. destruct Eb as [Eb|Eb].
    + left. apply negb_false_iff, Z.eqb_eq in Eb. exact Eb.
    + right. apply Z.leb_gt in Eb. exact Eb.
Qed.

(** A job as constructed, run from its first [spawn]. *)
Lemma run_job_completes :
  forall um world el name N extra,
  exists p' tr,
    run_job um (Z.to_nat N + 2 + extra) world (__init__ el name N)
    = Some (Ok p')
    /\ watcher p' = None
    /\ 1 <= tries (job p')
    /\ trace p'
       = Spawned (worker_pid (world 1))
           :: tr
           ++ [Completed
                 (fst (reported (finished (worker_run (world (tries (job p')))))))
                 (snd (reported (finished (worker_run (world (tries (job p')))))))]
    /\ completions tr = []
    /\ spawns tr = Z.to_nat (tries (job p') - 1)
    /\ (result_assignments tr <= 1)%nat
    /\ (forall s r, once_per_worker false (tr ++ [Completed s r]) = true)
    /\ (forall i, 1 <= i < tries (job p') ->
                  exit_code (finished (worker_run (world i))) <> 0 /\ i <= N)
    /\ (exit_code (finished (worker_run (world (tries (job p'))))) = 0
        \/ N < tries (job p')).
Proof.
  intros um world el name N extra. unfold run_job.
  destruct (lifetime_running um world (Z.to_nat N + 2 + extra)
              (spawn (worker_pid (world 1)) (start (__init__ el name N))))
    as [p' [tr (E & W & M & T & Tr & C & S & R & O & F & L)]];
    try reflexivity.
  - discriminate.
  - simpl. replace (N - 1 + 1) with N by lia. lia.
  - simpl in M, T, Tr, S, F, L. exists p', tr. repeat split; auto.
    + apply F. exact H.
    + apply F. exact H.
Qed.

(** When every worker exits nonzero, the job has [max_retries + 1]
    workers and ends with [success = False] and no result. *)
Lemma run_job_always_failing :
  forall um world el name N extra,
    0 <= N ->
    (forall n, exit_code (finished (worker_run (world n))) <> 0) ->
    exists p',
      run_job um (Z.to_nat N + 2 + extra) world (__init__ el name N)
      = Some (Ok p')
      /\ tries (job p') = N + 1
      /\ spawns (trace p') = Z.to_nat (N + 1)
      /\ completions (trace p') = [(false, PyNone)].
Proof.
  intros um world el name N extra HN Hfail.
  destruct (run_job_completes um world el name N extra)
    as [p' [tr (E & W & T & Tr & C & S & R & O & F & L)]].
  assert (Hk : tries (job p') = N + 1).
  { destruct L as [L|L]; [now apply Hfail in L|].
    destruct (Z.eq_dec (tries (job p')) (N + 1)) as [|Hne]; [assumption|].
    destruct (F (tries (job p') - 1)); lia. }
  exists p'. split; [exact E|]. split; [exact Hk|].
  rewrite Tr.
  change (Spawned ?x :: ?l) with ([Spawned x] ++ l).
  rewrite !spawns_app, !completions_app, C, S, Hk. simpl.
  change (spawns [Completed ?s ?r]) with 0%nat.
  split; [lia|].
  specialize (Hfail (N + 1)).
  destruct (finished (worker_run (world (N + 1)))); [now elim Hfail|reflexivity].
Qed.

Lemma spawn_tries :
  forall pid p, tries (job (spawn pid p)) = tries (job p) + 1.
Proof.
  intros pid p. unfold spawn, parent_start_listening. simpl.
  destruct (listening (job p)); reflexivity.
Qed.

(** C1. A job with [max_retries = N] whose action fails with a domain
    error in every worker spawns exactly [N + 1] workers ([tries] grows by
    one with each [spawn] and ends at [N + 1]) and calls [complete_cb]
    with [success = False]; with [N = 0] that is a single worker. *)
Theorem job_retries_exhausted :
  forall (um : list MessageType) (world : Z -> Worker) (el : Element)
         (name : string) (N : Z) (extra : nat),
    0 <= N ->
    (forall n, exists e,
        finished (worker_run (world n)) = Raises (OfBstError e)) ->
    (forall pid p, tries (job (spawn pid p)) = tries (job p) + 1)
    /\ exists p',
        run_job um (Z.to_nat N + 2 + extra) world (__init__ el name N)
        = Some (Ok p')
        /\ tries (job p') = N + 1
        /\ spawns (trace p') = Z.to_nat (N + 1)
        /\ completions (trace p') = [(false, PyNone)].
Proof.
  intros um world el name N extra HN Hfail.
  split; [exact spawn_tries|].
  apply run_job_always_failing; [exact HN|].
  intros n. destruct (Hfail n) as [e ->]. discriminate.
Qed.

Lemma job_retries_exhausted_witness :
  (exists p',
      run_job [] (Z.to_nat 2 + 2 + 0) failing_world
              (__init__ an_element "Fetch" 2) = Some (Ok p')
      /\ tries (job p') = 2 + 1
      /\ spawns (trace p') = Z.to_nat (2 + 1)
      /\ completions (trace p') = [(false, PyNone)])
  /\ (exists p',
         run_job [] (Z.to_nat 0 + 2 + 0) failing_world
                 (__init__ an_element "Fetch" 0) = Some (Ok p')
         /\ tries (job p') = 0 + 1
         /\ spawns (trace p') = Z.to_nat (0 + 1)
         /\ completions (trace p') = [(false, PyNone)]).
Proof.
  split.
  - apply (job_retries_exhausted [] failing_world an_element "Fetch" 2 0).
    + lia.
    + intros n. eexists. reflexivity.
  - apply (job_retries_exhausted [] failing_world an_element "Fetch" 0 0).
    + lia.
    + intros n. eexists. reflexivity.
Defined.

(** C2, as the code has it.  For a job that is left to its retry loop,
    that is, not terminated and with every worker leaving through
    [child_shutdown]: whatever the workers' actions do, [complete_cb] is
    called exactly once; it is the last thing that happens, after the last
    worker, and never after a worker that is spawned again.  Its [success]
    argument is [returncode == 0] of the last worker and its [result]
    argument is the value the last worker's action returned, or [None]
    when the last worker failed. *)
Theorem complete_cb_called_once :
  forall (um : list MessageType) (world : Z -> Worker) (el : Element)
         (name : string) (N : Z) (extra : nat),
  exists p' returncode,
    run_job um (Z.to_nat N + 2 + extra) world (__init__ el name N)
    = Some (Ok p')
    /\ let last := worker_run (world (tries (job p'))) in
       let delivered :=
         match finished last with
         | Returns v => v
         | Raises _ => PyNone
         end in
       (forall silent forked,
           snd (child_action um silent forked last) = returncode)
       /\ completions (trace p') = [(returncode =? 0, delivered)]
       /\ (exists before,
              trace p' = before ++ [Completed (returncode =? 0) delivered]
              /\ completions before = []
              /\ spawns before = Z.to_nat (tries (job p'))).
Proof.
  intros um world el name N extra.
  destruct (run_job_completes um world el name N extra)
    as [p' [tr (E & W & T & Tr & C & S & R & O & F & L)]].
  exists p', (exit_code (finished (worker_run (world (tries (job p')))))).
  split; [exact E|]. cbv zeta.
  split; [intros; apply child_action_exit_code|].
  set (f := finished (worker_run (world (tries (job p'))))) in *.
  assert (Hs : fst (reported f) = (exit_code f =? 0))
    by (destruct f; reflexivity).
  assert (Hr : snd (reported f) = match f with Returns v => v
                                          | Raises _ => PyNone end)
    by (destruct f; reflexivity).
  rewrite Hs, Hr in Tr. split.
  - rewrite Tr. change (Spawned ?x :: ?l) with ([Spawned x] ++ l).
    rewrite !completions_app, C. reflexivity.
  - exists (Spawned (worker_pid (world 1)) :: tr). split; [exact Tr|].
    split.
    + change (Spawned ?x :: ?l) with ([Spawned x] ++ l).
      rewrite completions_app, C. reflexivity.
    + change (spawns (Spawned (worker_pid (world 1)) :: tr))
        with (Datatypes.S (spawns tr)).
      rewrite S. lia.
Qed.

(** C2, as stated for every job, fails once [terminate()] is called.
    A worker returned ["ref"] and the parent read it; the worker is then
    terminated and exits with -15: [complete_cb] gets [success = False]
    with the result ["ref"], not [None].  When the parent had not read the
    queue yet and the worker still exits with 0, [complete_cb] gets
    [success = True] with [None], not what the worker delivered.  With
    [max_retries = 1] the terminated worker is spawned again, and the
    result of the second worker trips the assertion in
    [parent_process_envelope]: [complete_cb] is not called at all. *)
Lemma complete_cb_after_terminate :
  completions
    (trace (state_of (parent_child_completed 4001 (-15)
                        (read_then_terminated 0))))
  = [(false, PyStr "ref")]
  /\ completions
       (trace (state_of (parent_child_completed 4001 0 (terminated_unread 0))))
     = [(true, PyNone)]
  /\ option_map
       (fun o => match o with
                 | Ok p => (None, completions (trace p))
                 | Raise e p => (Some e, completions (trace p))
                 end)
       (lifetime [] 5 (fun _ => a_worker (Returns (PyStr "ref")))
          (state_of (parent_child_completed 4001 (-15)
                       (read_then_terminated 1))))
     = Some (Some AssertionError, []).
Proof. vm_compute. repeat split. Qed.

(** C3, as the code has it.  The parent tells a bug from a domain
    failure no more than the exit code does: a job whose action hits a bug
    in every worker is spawned again while [tries <= max_retries], [N + 1]
    workers in all, and ends with [success = False]. *)
Theorem bug_retried_like_failure :
  forall (um : list MessageType) (world : Z -> Worker) (el : Element)
         (name : string) (N : Z) (extra : nat),
    0 <= N ->
    (forall n, exists traceback,
        finished (worker_run (world n)) = Raises (OfException traceback)) ->
    exists p',
      run_job um (Z.to_nat N + 2 + extra) world (__init__ el name N)
      = Some (Ok p')
      /\ spawns (trace p') = Z.to_nat (N + 1)
      /\ completions (trace p') = [(false, PyNone)].
Proof.
  intros um world el name N extra HN Hbug.
  destruct (run_job_always_failing um world el name N extra HN)
    as [p' (E & _ & S & C)].
  - intros n. destruct (Hbug n) as [tb ->]. discriminate.
  - exists p'. auto.
Qed.

Lemma bug_retried_like_failure_witness :
  exists p',
    run_job [] (Z.to_nat 1 + 2 + 0) buggy_world (__init__ an_element "Build" 1)
    = Some (Ok p')
    /\ spawns (trace p') = Z.to_nat (1 + 1)
    /\ completions (trace p') = [(false, PyNone)].
Proof.
  apply (bug_retried_like_failure [] buggy_world an_element "Build" 1 0).
  - lia.
  - intros n. eexists. reflexivity.
Defined.

(** C3, as stated, fails: with [max_retries = 1] a job whose action hits
    a bug in every worker gets a second worker. *)
Lemma bug_is_respawned :
  finished (worker_run (buggy_world 1)) = Raises (OfException "KeyError")
  /\ option_map (fun o => spawns (trace (state_of o)))
       (run_job [] 3 buggy_world (__init__ an_element "Build" 1))
     = Some 2%nat.
Proof. split; reflexivity. Qed.




Lemma child_action_success_witness :
  snd (child_action [] false (__init__ an_element "Build" 0)
         (a_run (Returns (PyStr "ref")))) = 0.
Proof.
  exact (proj1 (child_action_success [] false (__init__ an_element "Build" 0)
                  (a_run (Returns (PyStr "ref"))) (PyStr "ref") eq_refl)).
Defined.

(* ================================================================== *)
(** ** Further properties of the code *)

(** *** Reading the queue in batches *)

Lemma parent_process_envelope_requeue :
  forall e q p,
    parent_process_envelope e (requeue q p)
    = match parent_process_envelope e p with
      | Ok p' => Ok (requeue q p')
      | Raise x p' => Raise x (requeue q p')
      end.
Proof.
  intros e q [j n ms err sg w tr]. destruct j as [q0 pr an el li su mr pi re wd t].
  unfold parent_process_envelope, requeue. simpl.
  destruct li; simpl; [|reflexivity].
  destruct e; simpl; try reflexivity.
  destruct (is_None re); reflexivity.
Qed.

Lemma drain_requeue :
  forall a q p, drain a (requeue q p) = drain a p.
Proof. intros [|e a] q p; reflexivity. Qed.

Lemma drain_leaves_queue_empty :
  forall a p p', drain a p = Ok p' -> queue (job p') = [].
Proof.
  induction a as [|e a IH]; intros p p' H; simpl in H.
  - inversion H. reflexivity.
  - destruct (parent_process_envelope e _) as [p2|x p2]; [|discriminate].
    apply (IH _ _ H).
Qed.

Lemma requeue_same :
  forall p, requeue (queue (job p)) p = p.
Proof. intros [[] ? ? ? ? ? ?]. reflexivity. Qed.

Lemma drain_app_ok :
  forall a b p p1, drain a p = Ok p1 -> drain (a ++ b) p = drain b p1.
Proof.
  induction a as [|e a IH]; intros b p p1 H.
  - simpl in H. inversion H. simpl. symmetry. apply (drain_requeue b [] p).
  - simpl in H |- *.
    fold (requeue a p) in H. fold (requeue (a ++ b) p).
    rewrite parent_process_envelope_requeue in H |- *.
    destruct (parent_process_envelope e p) as [p2|x p2]; simpl in H |- *;
      [|discriminate].
    rewrite drain_requeue in H |- *. now apply IH.
Qed.

Lemma drain_app_raise :
  forall a b p p1 x,
    drain a p = Raise x p1 ->
    drain (a ++ b) p = Raise x (requeue (queue (job p1) ++ b) p1).
Proof.
  induction a as [|e a IH]; intros b p p1 x H.
  - simpl in H. discriminate.
  - simpl in H |- *.
    fold (requeue a p) in H. fold (requeue (a ++ b) p).
    rewrite parent_process_envelope_requeue in H |- *.
    destruct (parent_process_envelope e p) as [p2|y p2]; simpl in H |- *.
    + rewrite drain_requeue in H |- *. now apply IH.
    + inversion H. subst. reflexivity.
Qed.

(** X1. Envelopes may be read in any batches: when [parent_recv] has read
    the envelopes [a] without an exception, reading [b] afterwards gives
    what reading [a ++ b] in one go gives; when reading [a] raised, reading
    [a ++ b] raises the same exception at the same envelope and the
    envelopes after it, with all of [b], stay on the queue. *)
Theorem parent_recv_batches :
  forall (a b : list Envelope) (p : Parent),
    (forall p1,
        parent_recv (requeue a p) = Ok p1 ->
        parent_recv (requeue (a ++ b) p) = parent_recv (requeue b p1))
    /\ (forall x p1,
           parent_recv (requeue a p) = Raise x p1 ->
           parent_recv (requeue (a ++ b) p)
           = Raise x (requeue (queue (job p1) ++ b) p1)).
Proof.
  intros a b p. unfold parent_recv, parent_process_queue. simpl queue.
  rewrite !drain_requeue. split.
  - intros p1 H. rewrite drain_requeue. now apply drain_app_ok.
  - intros x p1 H. now apply drain_app_raise.
Qed.

Lemma parent_recv_batches_witness :
  parent_recv (requeue ([EWorkspace (PyStr "w")] ++ [EResult (PyInt 1)])
                 (spawn 4000 (start (__init__ an_element "Build" 0))))
  = parent_recv
      (requeue [EResult (PyInt 1)]
         (state_of
            (parent_recv
               (requeue [EWorkspace (PyStr "w")]
                  (spawn 4000 (start (__init__ an_element "Build" 0))))))).
Proof.
  apply (proj1 (parent_recv_batches [EWorkspace (PyStr "w")]
                  [EResult (PyInt 1)]
                  (spawn 4000 (start (__init__ an_element "Build" 0))))).
  vm_compute. reflexivity.
Defined.

(** X2. A result is never overwritten: once [result] holds a value other
    than [None], it holds the same value after [parent_recv], whatever is
    on the queue and whether or not an exception is raised. *)
Theorem result_never_overwritten :
  forall (p : Parent),
    is_None (result (job p)) = false ->
    result (job (state_of (parent_recv p))) = result (job p).
Proof.
  intros p. unfold parent_recv, parent_process_queue.
  generalize (queue (job p)) as q. intros q. revert p.
  induction q as [|e q IH]; intros p H; simpl; [reflexivity|].
  fold (requeue q p). rewrite parent_process_envelope_requeue.
  unfold parent_process_envelope.
  destruct (negb (listening (job p))).
  - rewrite drain_requeue. now apply IH.
  - destruct e as [m|d r|v|v|t v]; try rewrite H; simpl;
      try reflexivity; try rewrite drain_requeue.
    + now rewrite IH.
    + now rewrite IH.
    + now rewrite IH.
Qed.

Lemma result_never_overwritten_witness :
  result (job (state_of
     (parent_recv
        (requeue [EResult (PyInt 2); EOther "x" PyNone]
           (state_of (parent_recv
              (requeue [EResult (PyInt 1)]
                 (spawn 4000 (start (__init__ an_element "Build" 0))))))))))
  = PyInt 1.
Proof.
  apply (result_never_overwritten
           (requeue [EResult (PyInt 2); EOther "x" PyNone]
              (state_of (parent_recv
                 (requeue [EResult (PyInt 1)]
                    (spawn 4000 (start (__init__ an_element "Build" 0)))))))).
  vm_compute. reflexivity.
Defined.

(** *** Terminating a job *)

Lemma drain_not_listening :
  forall q p, listening (job p) = false -> drain q p = Ok (requeue [] p).
Proof.
  induction q as [|e q IH]; intros p H; simpl; [reflexivity|].
  fold (requeue q p). rewrite parent_process_envelope_requeue.
  unfold parent_process_envelope. rewrite H. simpl.
  rewrite drain_requeue. now apply IH.
Qed.

Lemma terminate_stops_listening :
  forall found alive p p',
    terminate found alive p = Ok p' ->
    listening (job p') = false
    /\ tries (job p') = tries (job p)
    /\ max_retries (job p') = max_retries (job p)
    /\ result (job p') = result (job p)
    /\ workspace_dict (job p') = workspace_dict (job p)
    /\ last_task_error p' = last_task_error p
    /\ trace p' = trace p.
Proof.
  intros found alive p p' H. unfold terminate in H.
  destruct (resume true found p) as [p1|x p1] eqn:Er; [|discriminate].
  assert (H1 : tries (job p1) = tries (job p)
               /\ max_retries (job p1) = max_retries (job p)
               /\ result (job p1) = result (job p)
               /\ workspace_dict (job p1) = workspace_dict (job p)
               /\ last_task_error p1 = last_task_error p
               /\ trace p1 = trace p).
  { unfold resume in Er. destruct (suspended (job p)); simpl in Er.
    - destruct (process (job p)); [|discriminate].
      destruct found; [|discriminate]. inversion Er. simpl. auto 10.
    - inversion Er. auto 10. }
  destruct H1 as (T & M & R & Wd & L & Tr).
  unfold parent_stop_listening, message in H. simpl in H.
  destruct (listening (job p1)) eqn:El; simpl in H;
    destruct (process (job p1)); try discriminate;
    destruct alive; inversion H; simpl; auto 10.
Qed.

(** X3. [terminate()] makes "sure there is no garbage on the queue": once
    it has returned, whatever the worker still had on the queue, of any
    tag, is dropped when the child watcher reports the exit; nothing is
    assigned, no error is recorded, no exception is raised, and
    [complete_cb] (when the job is not spawned again) gets the result read
    before the termination. *)
Theorem terminate_discards_queue :
  forall (found alive : bool) (p p' : Parent) (q : list Envelope)
         (new_pid returncode : Z),
    terminate found alive p = Ok p' ->
    exists p'',
      parent_child_completed new_pid returncode (requeue q p') = Ok p''
      /\ result (job p'') = result (job p)
      /\ workspace_dict (job p'') = workspace_dict (job p)
      /\ last_task_error p'' = last_task_error p
      /\ context_messages p'' = context_messages p'
      /\ trace p''
         = trace p
             ++ [if negb (returncode =? 0)
                    && (tries (job p) <=? max_retries (job p))
                 then Spawned new_pid
                 else Completed (returncode =? 0) (result (job p))].
Proof.
  intros found alive p p' q new_pid rc H.
  apply terminate_stops_listening in H.
  destruct H as (L & T & M & R & Wd & E & Tr).
  unfold parent_child_completed, parent_shutdown, parent_process_queue.
  simpl queue. change (set_watcher None (requeue q p'))
    with (requeue q (set_watcher None p')).
  rewrite drain_requeue, drain_not_listening by exact L.
  unfold parent_stop_listening. simpl listening. rewrite L. simpl tries.
  simpl max_retries. rewrite T, M.
  destruct (negb (rc =? 0) && (tries (job p) <=? max_retries (job p))).
  - eexists. split; [reflexivity|].
    unfold spawn, parent_start_listening. simpl. rewrite L. simpl.
    rewrite R, Wd, E, Tr. auto 10.
  - eexists. split; [reflexivity|]. simpl. rewrite R, Wd, E, Tr. auto 10.
Qed.

Lemma terminate_discards_queue_witness :
  exists p'',
    parent_child_completed 4001 (-15)
      (requeue [EResult (PyInt 1); EOther "x" PyNone]
         (state_of (terminate true true
                      (spawn 4000 (start (__init__ an_element "Build" 0))))))
    = Ok p''
    /\ result (job p'')
       = result (job (spawn 4000 (start (__init__ an_element "Build" 0))))
    /\ workspace_dict (job p'')
       = workspace_dict (job (spawn 4000 (start (__init__ an_element "Build" 0))))
    /\ last_task_error p''
       = last_task_error (spawn 4000 (start (__init__ an_element "Build" 0)))
    /\ context_messages p''
       = context_messages
           (state_of (terminate true true
                        (spawn 4000 (start (__init__ an_element "Build" 0)))))
    /\ trace p''
       = trace (spawn 4000 (start (__init__ an_element "Build" 0)))
           ++ [if negb (-15 =? 0)
                  && (tries (job (spawn 4000
                                    (start (__init__ an_element "Build" 0))))
                      <=? max_retries
                            (job (spawn 4000
                                    (start (__init__ an_element "Build" 0)))))
               then Spawned 4001
               else Completed (-15 =? 0)
                      (result (job (spawn 4000
                                      (start (__init__ an_element "Build" 0)))))].
Proof.
  apply (terminate_discards_queue true true
           (spawn 4000 (start (__init__ an_element "Build" 0)))
           (state_of (terminate true true
                        (spawn 4000 (start (__init__ an_element "Build" 0)))))
           [EResult (PyInt 1); EOther "x" PyNone] 4001 (-15)).
  vm_compute. reflexivity.
Defined.

(** X4. [terminate()] on a suspended job resumes it silently first: the
    child gets [SIGCONT], then [SIGTERM]; the only message is the
    "terminating" status, and the job ends up neither suspended nor
    listening.  When the suspended child is gone, the [os.kill] of
    [resume] raises [ProcessLookupError] out of [terminate()], which has
    changed nothing by then: the job is still marked suspended and the
    parent still listens. *)
Theorem terminate_suspended :
  forall (p : Parent) (child : Z),
    suspended (job p) = true ->
    process (job p) = Some child ->
    (exists p',
        terminate true true p = Ok p'
        /\ signals p' = signals p ++ [(child, SIGCONT); (child, SIGTERM)]
        /\ context_messages p'
           = context_messages p
               ++ [new_message (element (job p)) STATUS
                     (action_name (job p) ++ " terminating") None]
        /\ suspended (job p') = false
        /\ listening (job p') = false)
    /\ (forall alive, terminate false alive p = Raise ProcessLookupError p).
Proof.
  intros p child Hs Hp. split.
  - unfold terminate, resume. rewrite Hs. simpl. rewrite Hp.
    unfold parent_stop_listening, message. simpl.
    destruct (listening (job p)) eqn:El; simpl; rewrite Hp;
      (eexists; split; [reflexivity|]); simpl;
      rewrite <- app_assoc; repeat split; auto.
  - intros alive. unfold terminate, resume. rewrite Hs. simpl.
    rewrite Hp. reflexivity.
Qed.

Lemma terminate_suspended_witness :
  terminate false true
    (state_of (suspend true
                 (spawn 4000 (start (__init__ an_element "Build" 0)))))
  = Raise ProcessLookupError
      (state_of (suspend true
                   (spawn 4000 (start (__init__ an_element "Build" 0))))).
Proof.
  apply (proj2 (terminate_suspended
                  (state_of (suspend true
                     (spawn 4000 (start (__init__ an_element "Build" 0)))))
                  4000 eq_refl eq_refl)).
Defined.

(** *** Suspend and resume *)

Lemma suspend_balance :
  forall found p,
    (stops_sent (signals (state_of (suspend found p)))
     - conts_sent (signals (state_of (suspend found p))))
    - (stops_sent (signals p) - conts_sent (signals p))
    = Z.b2z (suspended (job (state_of (suspend found p))))
      - Z.b2z (suspended (job p)).
Proof.
  intros found p. unfold suspend.
  destruct (suspended (job p)) eqn:Es; simpl; [rewrite Es; simpl; lia|].
  destruct (process (job p)) as [child|]; simpl; [|rewrite Es; simpl; lia].
  destruct found; simpl; [|rewrite Es; simpl; lia].
  unfold stops_sent, conts_sent. rewrite !filter_app, !length_app. simpl. lia.
Qed.

Lemma resume_balance :
  forall silent found p,
    (stops_sent (signals (state_of (resume silent found p)))
     - conts_sent (signals (state_of (resume silent found p))))
    - (stops_sent (signals p) - conts_sent (signals p))
    = Z.b2z (suspended (job (state_of (resume silent found p))))
      - Z.b2z (suspended (job p)).
Proof.
  intros silent found p. unfold resume.
  destruct (suspended (job p)) eqn:Es; simpl; [|rewrite Es; simpl; lia].
  destruct silent, found; simpl;
    destruct (process (job p)) as [child|]; simpl; try rewrite Es;
    unfold stops_sent, conts_sent; try rewrite !filter_app, !length_app;
    simpl; lia.
Qed.

(** X5. Suspend and resume signals stay paired: over any sequence of
    [suspend()] and [resume()] calls, with or without the process being
    found, the [SIGTSTP] signals sent exceed the [SIGCONT] signals sent
    by one exactly when the job goes from not suspended to suspended, and
    conversely; so a job that starts and ends not suspended was sent as
    many of the one as of the other. *)
Theorem suspend_resume_balance :
  forall (calls : list call) (p : Parent),
    let p' := fold_left perform calls p in
    (stops_sent (signals p') - conts_sent (signals p'))
    - (stops_sent (signals p) - conts_sent (signals p))
    = Z.b2z (suspended (job p')) - Z.b2z (suspended (job p)).
Proof.
  induction calls as [|c calls IH]; intros p; simpl; [lia|].
  specialize (IH (perform p c)). cbv zeta in IH.
  assert (H : (stops_sent (signals (perform p c))
               - conts_sent (signals (perform p c)))
              - (stops_sent (signals p) - conts_sent (signals p))
              = Z.b2z (suspended (job (perform p c)))
                - Z.b2z (suspended (job p))).
  { destruct c; simpl; [apply suspend_balance | apply resume_balance]. }
  lia.
Qed.

(** *** Retrying until a worker succeeds *)



(** *** What a worker sends and logs *)

Lemma errors_app : forall a b, errors (a ++ b) = errors a ++ errors b.
Proof. intros. apply flat_map_app. Qed.

Lemma messages_app : forall a b, messages (a ++ b) = messages a ++ messages b.
Proof. intros. apply flat_map_app. Qed.

Lemma messages_only :
  forall l, errors (map EMessage l) = [] /\ messages (map EMessage l) = l.
Proof.
  induction l as [|m l [H1 H2]]; simpl; [auto|].
  split; [exact H1 | now rewrite H2].
Qed.

Lemma child_action_wire :
  forall (um : list MessageType) (silent : bool) (forked : Job) (run : Run),
    let c := fst (child_action um silent forked run) in
    errors (sent c)
    = match finished run with
      | Raises (OfBstError e) => [(err_domain e, err_reason e)]
      | _ => []
      end
    /\ workspaces (sent c)
       = match finished run, workspace run with
         | Raises (OfException _), _ => []
         | _, None => []
         | _, Some d => [d]
         end
    /\ (snd (child_action um silent forked run) =? 0)
       = match finished run with Returns _ => true | Raises _ => false end.
Proof.
  intros um silent forked run c. subst c.
  rewrite child_action_exit_code.
  destruct (child_action_sent um silent forked run) as [l1 [l2 H]].
  rewrite H. clear H.
  destruct (messages_only l1) as [E1 _]. destruct (messages_only l2) as [E2 _].
  destruct (messages_carry_nothing l1) as [_ [W1 _]].
  destruct (messages_carry_nothing l2) as [_ [W2 _]].
  destruct (finished run) as [v|[e|tb]];
    rewrite ?errors_app, ?workspaces_app, ?E1, ?E2, ?W1, ?W2;
    unfold sent_workspace, sent_result;
    destruct (workspace run); try destruct (is_None v); simpl; auto.
Qed.

(** X7. The three ways a worker ends, on the wire: an error envelope,
    with the domain and reason of the exception, is sent exactly when the
    action raised a [BstError]; the workspace is sent after a success and
    after a [BstError], but not after an unhandled exception; the exit
    code is nonzero exactly when the action raised. *)
Theorem child_action_envelopes :
  forall (um : list MessageType) (silent : bool) (forked : Job) (run : Run),
    let c := fst (child_action um silent forked run) in
    errors (sent c)
    = match finished run with
      | Raises (OfBstError e) => [(err_domain e, err_reason e)]
      | _ => []
      end
    /\ workspaces (sent c)
       = match finished run, workspace run with
         | Raises (OfException _), _ => []
         | _, None => []
         | _, Some d => [d]
         end
    /\ (snd (child_action um silent forked run) =? 0)
       = match finished run with Returns _ => true | Raises _ => false end.
Proof. exact child_action_wire. Qed.

Lemma child_message_handler_passes :
  forall um silent m c,
    forallb (passes (self c)) (sent c) = true ->
    forallb (passes (self c)) (sent (child_message_handler um silent m c))
    = true.
Proof.
  intros um silent m c H. unfold child_message_handler.
  simpl self. simpl Message.message_type.
  destruct (silent && _); [exact H|].
  match goal with |- context [MessageType_beq ?t LOG] =>
    destruct (MessageType_beq t LOG) eqn:El end; [exact H|].
  unfold put. simpl sent. rewrite forallb_app, H. simpl.
  unfold passes, carries. rewrite El. simpl.
  destruct (tries (self c) <=? max_retries (self c)); simpl; [|reflexivity].
  rewrite andb_true_r.
  destruct (MessageType_beq (Message.message_type m) FAIL) eqn:Ef;
    simpl; [reflexivity|]. rewrite Ef. reflexivity.
Qed.

Lemma child_message_handler_logfile :
  forall um silent m c,
    logfile (child_message_handler um silent m c)
    = logfile c
        ++ [Message.tag (action_name (self c))
              (Element._get_unique_id (element (self c))) m].
Proof.
  intros. unfold child_message_handler.
  destruct (silent && _); [reflexivity|].
  match goal with |- context [MessageType_beq ?t LOG] =>
    destruct (MessageType_beq t LOG) end; reflexivity.
Qed.

Lemma emitted_passes :
  forall um (l : list (Message * bool)) c,
    forallb (passes (self c)) (sent c) = true ->
    forallb (passes (self c))
      (sent (fold_left
               (fun c ms => child_message_handler um (snd ms) (fst ms) c) l c))
    = true.
Proof.
  intros um l. induction l as [|[m s] l IH]; intros c H; simpl; [exact H|].
  rewrite <- (child_message_handler_self um s m c).
  apply IH. rewrite child_message_handler_self.
  now apply child_message_handler_passes.
Qed.

Lemma emitted_logfile :
  forall um (l : list (Message * bool)) c,
    map Message.message_type
      (logfile (fold_left
                  (fun c ms => child_message_handler um (snd ms) (fst ms) c)
                  l c))
    = map Message.message_type (logfile c)
        ++ map (fun ms => Message.message_type (fst ms)) l.
Proof.
  intros um l. induction l as [|[m s] l IH]; intros c; simpl.
  - now rewrite app_nil_r.
  - rewrite IH, child_message_handler_logfile, map_app. simpl.
    now rewrite <- app_assoc.
Qed.

Lemma put_passes :
  forall j e c,
    carries LOG e = false -> carries FAIL e = false ->
    forallb (passes j) (sent c) = true ->
    forallb (passes j) (sent (put e c)) = true.
Proof.
  intros j e c Hl Hf H. unfold put. simpl. rewrite forallb_app, H. simpl.
  unfold passes. rewrite Hl, Hf, andb_false_r. reflexivity.
Qed.

(** The worker's queue passes the handler's filter, whatever the action
    does. *)
Lemma child_action_passes :
  forall um silent forked run,
    forallb (passes forked) (sent (fst (child_action um silent forked run)))
    = true.
Proof.
  intros um silent forked run. unfold child_action.
  destruct (child_action_prologue um silent forked run) as [Hself _].
  cbv zeta in Hself |- *.
  match type of Hself with self ?x = _ => set (c0 := x) in * end.
  assert (H0 : forallb (passes forked) (sent c0) = true).
  { subst c0.
    match goal with |- context [fold_left _ _ ?c] => set (c1 := c) end.
    assert (Hs1 : self c1 = forked).
    { subst c1. unfold child_message.
      now rewrite !child_message_handler_self. }
    pose proof (emitted_passes um (emitted run) c1) as Hp.
    rewrite Hs1 in Hp. apply Hp. clear Hp. subst c1. unfold child_message.
    rewrite child_message_handler_self. simpl self.
    match goal with |- context [child_message_handler um silent ?m2
                                  (child_message_handler um silent ?m1 ?c)] =>
      pose proof (child_message_handler_passes um silent m2
                    (child_message_handler um silent m1 c)) as H2;
      pose proof (child_message_handler_passes um silent m1 c) as H1 end.
    rewrite child_message_handler_self in H2. simpl self in H1, H2.
    apply H2. apply H1. reflexivity. }
  assert (Hw : forall c, self c = forked ->
                         forallb (passes forked) (sent c) = true ->
                         forallb (passes forked)
                           (sent (child_send_workspace (workspace run) c))
                         = true).
  { intros c Hs H. unfold child_send_workspace.
    destruct (workspace run); [now apply put_passes | exact H]. }
  assert (Hm : forall s t text d c,
             self c = forked ->
             forallb (passes forked) (sent c) = true ->
             forallb (passes forked)
               (sent (child_message um s t text d c)) = true).
  { intros s t text d c Hs H. unfold child_message. rewrite <- Hs in *.
    rewrite <- (child_message_handler_self um s
                  (new_message (element (self c)) t text d) c) at 1.
    rewrite child_message_handler_self.
    now apply child_message_handler_passes. }
  destruct (finished run) as [v|[e|tb]]; unfold child_shutdown; simpl fst.
  - apply Hm.
    + unfold child_send_result, child_send_workspace.
      destruct (negb (is_None v)), (workspace run); simpl; exact Hself.
    + unfold child_send_result.
      destruct (negb (is_None v));
        [apply put_passes; try reflexivity|]; now apply Hw.
  - unfold child_send_error. cbv iota beta. apply put_passes; try reflexivity.
    apply Hw.
    + destruct (tries forked <=? max_retries forked); unfold child_message;
        now rewrite child_message_handler_self.
    + destruct (tries forked <=? max_retries forked); now apply Hm.
  - now apply Hm.
Qed.

(** X8. What reaches the frontend: no envelope of a worker carries a
    [LOG] message; while the job has tries left ([tries <= max_retries])
    none carries a [FAIL] message either, whatever types the action's own
    messages have; and a worker on its last try whose action raises a
    [BstError], messages not being silenced, does send a [FAIL]. *)
Theorem fail_shown_only_on_last_try :
  forall (um : list MessageType) (silent : bool) (forked : Job) (run : Run),
    let q := sent (fst (child_action um silent forked run)) in
    forallb (fun e => negb (carries LOG e)) q = true
    /\ (if tries forked <=? max_retries forked
        then forallb (fun e => negb (carries FAIL e)) q
        else true) = true
    /\ (forall e,
           finished run = Raises (OfBstError e) ->
           max_retries forked < tries forked ->
           silent_messages run = false ->
           existsb (carries FAIL) q = true).
Proof.
  intros um silent forked run q. subst q.
  pose proof (child_action_passes um silent forked run) as H.
  rewrite forallb_forall in H. split; [|split].
  - apply forallb_forall. intros x Hx. apply H in Hx.
    unfold passes in Hx. apply andb_prop in Hx. tauto.
  - destruct (tries forked <=? max_retries forked) eqn:Et; [|reflexivity].
    apply forallb_forall. intros x Hx. apply H in Hx.
    unfold passes in Hx. rewrite Et in Hx. simpl in Hx.
    apply andb_prop in Hx. tauto.
  - intros e He Hlast Hsilent. unfold child_action. rewrite He.
    destruct (child_action_prologue um silent forked run) as [Hself _].
    cbv zeta in Hself |- *.
    match type of Hself with self ?x = _ => set (c0 := x) in * end.
    apply Z.leb_gt in Hlast. rewrite Hlast, Hsilent.
    unfold child_shutdown. simpl fst.
    unfold child_send_error. cbv iota beta. unfold put. simpl sent.
    rewrite child_send_workspace_sent, !existsb_app.
    assert (Hf : existsb (carries FAIL)
                   (sent (child_message um false FAIL (err_str e)
                            (err_detail e) c0)) = true).
    { unfold child_message, child_message_handler. simpl self.
      rewrite Hself, Hlast. simpl. rewrite existsb_app. simpl.
      now rewrite orb_true_r. }
    rewrite Hf. reflexivity.
Qed.

Lemma fail_shown_only_on_last_try_witness :
  existsb (carries FAIL)
    (sent (fst (child_action [] false
                  (set_tries 1 (__init__ an_element "Fetch" 0))
                  (a_run domain_failure)))) = true.
Proof.
  apply (proj2 (proj2 (fail_shown_only_on_last_try [] false
                         (set_tries 1 (__init__ an_element "Fetch" 0))
                         (a_run domain_failure)))
           {| err_str := "fetch failed"; err_detail := None;
              err_domain := Some "source"%string; err_reason := None |}).
  - reflexivity.
  - simpl. lia.
  - reflexivity.
Defined.

(** X9. The log file is complete and keeps the original types: a worker
    logs its [START] and [LOG] lines, every message of the action in
    order, silenced or not, and one final line, [SUCCESS], [FAIL] or
    [BUG] by the way the action ended; a [FAIL] is logged as [FAIL] also
    when the frontend is sent a [WARN]. *)
Theorem child_action_logfile :
  forall (um : list MessageType) (silent : bool) (forked : Job) (run : Run),
    map Message.message_type
        (logfile (fst (child_action um silent forked run)))
    = [START; LOG]
        ++ map (fun ms => Message.message_type (fst ms)) (emitted run)
        ++ [final_type (finished run)].
Proof.
  intros um silent forked run. unfold child_action.
  set (c0 := fold_left _ (emitted run) _).
  assert (H0 : map Message.message_type (logfile c0)
               = [START; LOG]
                   ++ map (fun ms => Message.message_type (fst ms))
                          (emitted run)).
  { subst c0. rewrite emitted_logfile. f_equal. unfold child_message.
    rewrite !child_message_handler_logfile. reflexivity. }
  assert (Hw : forall c, logfile (child_send_workspace (workspace run) c)
                         = logfile c).
  { intros c. unfold child_send_workspace. now destruct (workspace run). }
  assert (Hm : forall s t text d c,
             map Message.message_type (logfile (child_message um s t text d c))
             = map Message.message_type (logfile c) ++ [t]).
  { intros. unfold child_message.
    now rewrite child_message_handler_logfile, map_app. }
  destruct (finished run) as [v|[e|tb]]; unfold child_shutdown; simpl fst.
  - rewrite Hm. unfold child_send_result.
    destruct (negb (is_None v)); simpl logfile; rewrite Hw, H0;
      now rewrite <- app_assoc.
  - unfold child_send_error. cbv iota beta. simpl logfile. rewrite Hw.
    destruct (tries forked <=? max_retries forked); rewrite Hm, H0;
      now rewrite <- app_assoc.
  - rewrite Hm, H0. now rewrite <- app_assoc.
Qed.

(** *** What one worker leaves in the parent *)

Lemma last_cons_default :
  forall (A : Type) (l : list A) (x d d' : A),
    last (x :: l) d = last (x :: l) d'.
Proof.
  intros A l. induction l as [|y l IH]; intros x d d'; [reflexivity|].
  change (last (x :: y :: l) d) with (last (y :: l) d).
  change (last (x :: y :: l) d') with (last (y :: l) d'). apply IH.
Qed.

Lemma last_app_default :
  forall (A : Type) (a b : list A) (d : A),
    last (a ++ b) d = last b (last a d).
Proof.
  intros A a b d. revert d. induction a as [|x a IH]; intros d; [reflexivity|].
  destruct a as [|y a].
  - simpl app. destruct b as [|z b]; [reflexivity|].
    change (last (x :: z :: b) d) with (last (z :: b) d).
    apply last_cons_default.
  - change (last ((x :: y :: a) ++ b) d) with (last ((y :: a) ++ b) d).
    rewrite IH. reflexivity.
Qed.

Lemma drain_reports :
  forall q p p',
    drain q p = Ok p' ->
    listening (job p) = true ->
    listening (job p') = true
    /\ context_messages p' = context_messages p ++ messages q
    /\ last_task_error p' = last (map Some (errors q)) (last_task_error p)
    /\ workspace_dict (job p')
       = last (workspaces q) (workspace_dict (job p)).
Proof.
  induction q as [|e q IH]; intros p p' H Hl.
  - simpl in H. inversion H. simpl. rewrite app_nil_r. auto.
  - simpl in H. fold (requeue q p) in H.
    rewrite parent_process_envelope_requeue in H.
    unfold parent_process_envelope in H. rewrite Hl in H. simpl in H.
    destruct e as [m|d r|v|v|t v].
    + rewrite drain_requeue in H. apply IH in H; [|exact Hl].
      simpl in H. destruct H as (H1 & H2 & H3 & H4).
      repeat split; try assumption.
      rewrite H2. simpl. now rewrite <- app_assoc.
    + rewrite drain_requeue in H. apply IH in H; [|exact Hl].
      simpl in H. destruct H as (H1 & H2 & H3 & H4).
      repeat split; try assumption.
      rewrite H3. change (errors (EError d r :: q)) with ((d, r) :: errors q).
      simpl map. destruct (map Some (errors q)) as [|o l]; [reflexivity|].
      change (last (Some (d, r) :: o :: l) (last_task_error p))
        with (last (o :: l) (last_task_error p)).
      apply last_cons_default.
    + destruct (is_None (result (job p))); simpl in H; [|discriminate].
      rewrite drain_requeue in H. apply IH in H; [|exact Hl].
      simpl in H. exact H.
    + rewrite drain_requeue in H. apply IH in H; [|exact Hl].
      simpl in H. destruct H as (H1 & H2 & H3 & H4).
      repeat split; try assumption.
      rewrite H4. change (workspaces (EWorkspace v :: q))
        with (v :: workspaces q).
      destruct (workspaces q) as [|o l]; [reflexivity|].
      change (last (v :: o :: l) (workspace_dict (job p)))
        with (last (o :: l) (workspace_dict (job p))).
      apply last_cons_default.
    + discriminate.
Qed.

Lemma worker_exit_reports :
  forall um w new_pid p p',
    worker_exit um w new_pid p = Ok p' ->
    listening (job p) = true ->
    queue (job p) = [] ->
    let q := sent (fst (child_action um (worker_silent w) (job p)
                          (worker_run w))) in
    context_messages p' = context_messages p ++ messages q
    /\ last_task_error p' = last (map Some (errors q)) (last_task_error p)
    /\ workspace_dict (job p') = last (workspaces q) (workspace_dict (job p)).
Proof.
  intros um w new_pid p p' H Hl Hq q. subst q. unfold worker_exit in H.
  destruct (child_action um (worker_silent w) (job p) (worker_run w))
    as [c rc].
  simpl fst. set (k := worker_early w) in *.
  rewrite <- (firstn_skipn k (sent c)) at 1 2 3.
  rewrite messages_app, errors_app, workspaces_app, map_app, !last_app_default.
  unfold parent_recv, parent_process_queue in H. simpl queue in H.
  rewrite Hq in H. simpl app in H.
  fold (requeue (firstn k (sent c)) p) in H. rewrite drain_requeue in H.
  destruct (drain (firstn k (sent c)) p) as [pa|x pa] eqn:Ea; [|discriminate].
  pose proof (drain_leaves_queue_empty _ _ _ Ea) as Qa.
  apply drain_reports in Ea; [|exact Hl]. destruct Ea as (La & Ma & Ea & Wa).
  unfold parent_child_completed, parent_shutdown, parent_process_queue in H.
  simpl queue in H. rewrite Qa in H. simpl app in H.
  change (set_watcher None
            (set_job (set_queue (skipn k (sent c)) (job pa)) pa))
    with (requeue (skipn k (sent c)) (set_watcher None pa)) in H.
  rewrite drain_requeue in H.
  destruct (drain (skipn k (sent c)) (set_watcher None pa)) as [pb|x pb] eqn:Eb;
    [|discriminate].
  apply drain_reports in Eb; [|exact La]. simpl in Eb.
  destruct Eb as (Lb & Mb & Eb & Wb).
  unfold parent_stop_listening in H. rewrite Lb in H.
  assert (G : context_messages p' = context_messages pb
              /\ last_task_error p' = last_task_error pb
              /\ workspace_dict (job p') = workspace_dict (job pb)).
  { destruct (negb (rc =? 0) && _); inversion H; simpl; auto. }
  destruct G as (G1 & G2 & G3).
  rewrite G1, G2, G3, Mb, Eb, Wb, Ma, Ea, Wa.
  now rewrite <- app_assoc.
Qed.



(** *** The last task error over the life of a job *)

Lemma lifetime_preserves :
  forall um world (I : Parent -> Prop),
    (forall p n pid p',
        listening (job p) = true -> result (job p) = PyNone ->
        queue (job p) = [] -> I p ->
        worker_exit um (world n) pid p = Ok p' -> I p') ->
    forall fuel p p',
      watcher p = None
      \/ (listening (job p) = true /\ result (job p) = PyNone
          /\ queue (job p) = []) ->
      I p ->
      lifetime um fuel world p = Some (Ok p') ->
      I p'.
Proof.
  intros um world I Hstep. induction fuel as [|fuel IH];
    intros p p' Hp HI H; [discriminate|].
  simpl in H. destruct (watcher p) as [wpid|] eqn:Ew.
  - destruct Hp as [Hp|(Hl & Hr & Hq)]; [discriminate|].
    set (w := world (tries (job p))) in *.
    set (new_pid := worker_pid (world (tries (job p) + 1))) in *.
    destruct (worker_exit_listening um w new_pid p Hl Hr Hq)
      as [p1 (L1 & Q1 & T1 & M1 & W1 & R1 & Tr1 & E)].
    destruct (worker_exit um w new_pid p) as [p2|x p2] eqn:E2;
      [|destruct (negb _ && _); discriminate].
    apply (IH p2 p'); [| apply (Hstep p _ new_pid p2 Hl Hr Hq HI E2) | exact H].
    destruct (negb (exit_code (finished (worker_run w)) =? 0)
              && (tries (job p) <=? max_retries (job p))) eqn:Eb;
      inversion E; subst p2.
    + right. unfold spawn, parent_start_listening. simpl. rewrite L1. simpl.
      repeat split; [|exact Q1]. rewrite R1.
      apply andb_prop in Eb. destruct Eb as [Eb _].
      destruct (finished (worker_run w)); [discriminate | reflexivity].
    + left. exact W1.
  - inversion H. subst. exact HI.
Qed.

(** X11. The last task error is written by domain failures only: a job
    none of whose workers raises a [BstError], be it that they succeed or
    hit bugs, and however often it is retried, ends with the last task
    error unset as it was at the start. *)
Theorem last_task_error_unset_without_domain_failure :
  forall (um : list MessageType) (world : Z -> Worker) (el : Element)
         (name : string) (N : Z) (extra : nat),
    (forall n e, finished (worker_run (world n)) <> Raises (OfBstError e)) ->
    exists p',
      run_job um (Z.to_nat N + 2 + extra) world (__init__ el name N)
      = Some (Ok p')
      /\ last_task_error p' = None.
Proof.
  intros um world el name N extra Hno.
  destruct (run_job_completes um world el name N extra) as [p' [tr (E & _)]].
  exists p'. split; [exact E|].
  unfold run_job in E.
  refine (lifetime_preserves um world (fun p => last_task_error p = None)
            _ _ _ _ _ _ E).
  - intros p n pid p2 Hl Hr Hq HI H2.
    destruct (worker_exit_reports um (world n) pid p p2 H2 Hl Hq) as (_ & L & _).
    destruct (child_action_wire um (worker_silent (world n)) (job p)
                (worker_run (world n))) as (He & _).
    cbv zeta in He. rewrite L, He, HI.
    specialize (Hno n).
    destruct (finished (worker_run (world n))) as [v|[e|tb]];
      [reflexivity | now elim (Hno e) | reflexivity].
  - right. repeat split.
  - reflexivity.
Qed.

Lemma last_task_error_unset_without_domain_failure_witness :
  exists p',
    run_job [] (Z.to_nat 1 + 2 + 0) buggy_world (__init__ an_element "Build" 1)
    = Some (Ok p')
    /\ last_task_error p' = None.
Proof.
  apply (last_task_error_unset_without_domain_failure [] buggy_world
           an_element "Build" 1 0).
  intros n e. discriminate.
Defined.

(** *** Tracking: what [done] writes *)

Lemma track_loop_main :
  forall save_error refs m changed,
    let m' := fst (fold_left
                     (fun (st : TrackQueue.Main * bool) entry =>
                        (TrackQueue.save save_error entry (fst st), snd st))
                     refs (m, changed)) in
    TrackQueue.saved_refs m'
    = rev (filter (fun e => match save_error (fst e) (snd e) with
                            | None => true
                            | Some _ => false
                            end) refs)
        ++ TrackQueue.saved_refs m
    /\ TrackQueue.warnings m'
       = TrackQueue.warnings m
           ++ flat_map (fun e => match save_error (fst e) (snd e) with
                                 | None => []
                                 | Some err =>
                                     [(fst e,
                                       "Failed to update project file"%string,
                                       err)]
                                 end) refs
    /\ TrackQueue.message_depth m' = TrackQueue.message_depth m
    /\ TrackQueue.state_updates m' = TrackQueue.state_updates m.
Proof.
  intros save_error refs. induction refs as [|[id ref] refs IH];
    intros m changed.
  - simpl. rewrite app_nil_r. auto.
  - specialize (IH (TrackQueue.save save_error (id, ref) m) changed).
    cbv zeta in IH |- *. destruct IH as (H1 & H2 & H3 & H4).
    cbn [fold_left]. change (fst (m, changed)) with m.
    change (snd (m, changed)) with changed.
    rewrite H1, H2, H3, H4. unfold TrackQueue.save. simpl filter.
    simpl flat_map. simpl fst. simpl snd.
    destruct (save_error id ref) as [err|]; simpl.
    + rewrite <- app_assoc. auto.
    + rewrite <- app_assoc. auto.
Qed.

(** X12. What [TrackQueue.done] writes.  On a zero return code every
    ref of the result whose [_save_ref] does not raise is saved, in the
    order of the result; a [SourceError] costs one warning for that source
    and does not stop the refs after it from being saved; the element's
    state is updated once and the message depth pushed for it is popped
    again.  On a nonzero return code nothing at all is written. *)
Theorem done_saves_refs :
  forall (save_error : Z -> pyobj -> option string)
         (refs : list (Z * pyobj)) (m : TrackQueue.Main),
    let m' := fst (TrackQueue.done save_error (Some refs) 0 m) in
    TrackQueue.saved_refs m'
    = rev (filter (fun e => match save_error (fst e) (snd e) with
                            | None => true
                            | Some _ => false
                            end) refs)
        ++ TrackQueue.saved_refs m
    /\ TrackQueue.warnings m'
       = TrackQueue.warnings m
           ++ flat_map (fun e => match save_error (fst e) (snd e) with
                                 | None => []
                                 | Some err =>
                                     [(fst e,
                                       "Failed to update project file"%string,
                                       err)]
                                 end) refs
    /\ TrackQueue.message_depth m' = TrackQueue.message_depth m
    /\ TrackQueue.state_updates m' = Datatypes.S (TrackQueue.state_updates m)
    /\ (forall result returncode,
           (returncode =? 0) = false ->
           fst (TrackQueue.done save_error result returncode m) = m).
Proof.
  intros save_error refs m m'. subst m'. unfold TrackQueue.done.
  split; [|split; [|split; [|split]]].
  5:{ intros r rc H. rewrite H. reflexivity. }
  all: simpl negb; cbv iota;
    pose proof (track_loop_main save_error refs m false) as H;
    cbv zeta in H; destruct (fold_left _ refs (m, false)) as [m1 ch];
    simpl in H |- *; destruct H as (H1 & H2 & H3 & H4); congruence.
Qed.

(** *** The elements a build and a fetch enqueue *)

Lemma filter_out_filtered :
  forall (f : Z -> bool) (l : list Z),
    filter (fun x => negb (existsb (Z.eqb x) (filter f l))) l
    = filter (fun x => negb (f x)) l.
Proof.
  intros f l. apply filter_ext_in. intros x Hx. f_equal.
  destruct (f x) eqn:Ef.
  - apply existsb_exists. exists x. split; [|apply Z.eqb_refl].
    apply filter_In. auto.
  - apply not_true_is_false. intros H. apply existsb_exists in H.
    destruct H as [y [Hy Hxy]]. apply Z.eqb_eq in Hxy. subst y.
    apply filter_In in Hy. destruct Hy as [_ Hy]. congruence.
Qed.

Lemma filter_filter :
  forall (A : Type) (f g : A -> bool) (l : list A),
    filter g (filter f l) = filter (fun x => f x && g x) l.
Proof.
  intros A f g l. induction l as [|x l IH]; [reflexivity|]. simpl.
  destruct (f x); simpl; [destruct (g x)|]; now rewrite IH.
Qed.

(** X13. Where [build] puts the elements: the elements to track are all
    in the Track queue; the rest of the plan, from which every tracked
    element has been removed, is in the queue that follows, the Pull
    queue when the cache has fetch remotes and the Fetch queue
    otherwise; the Build and Push queues start empty; and
    [session_elements] counts exactly the elements enqueued. *)
Theorem build_enqueues :
  forall (run : list Stream.Queue -> Stream.SchedStatus)
         (pipeline : Stream.Pipeline) (build_all : bool),
    let plan :=
      filter (fun e => negb (existsb (Z.eqb e)
                                     (Stream._track_elements pipeline)))
             (if build_all then Stream.dependencies_all pipeline
              else Stream._plan pipeline) in
    let placed queues :=
      enqueued_in Stream.Track queues = Stream._track_elements pipeline
      /\ enqueued_in (if Stream.has_fetch_remotes pipeline
                      then Stream.Pull else Stream.Fetch) queues = plan
      /\ enqueued_in (if Stream.has_fetch_remotes pipeline
                      then Stream.Fetch else Stream.Pull) queues = []
      /\ enqueued_in Stream.Build queues = []
      /\ enqueued_in Stream.Push queues = []
      /\ Forall (fun e => ~ In e (Stream._track_elements pipeline)) plan in
    match Stream.build run pipeline build_all with
    | Stream.Ran queues session_elements =>
        placed queues
        /\ session_elements
           = Z.of_nat (List.length (flat_map Stream.enqueued queues))
    | Stream.StreamError _ queues => placed queues
    | Stream.PipelineError => True
    end.
Proof.
  intros run pipeline build_all plan placed.
  assert (Hplan : Forall (fun e => ~ In e (Stream._track_elements pipeline))
                         plan).
  { apply Forall_forall. intros e He Hin. apply filter_In in He.
    destruct He as [_ He]. apply negb_true_iff in He.
    assert (existsb (Z.eqb e) (Stream._track_elements pipeline) = true);
      [|congruence].
    apply existsb_exists. exists e. split; [exact Hin | apply Z.eqb_refl]. }
  assert (Hall : flat_map Stream.enqueued (Stream.build_queues pipeline plan)
                 = Stream._track_elements pipeline ++ plan).
  { unfold Stream.build_queues.
    destruct (Stream._track_elements pipeline) as [|t ts];
      destruct (Stream.has_fetch_remotes pipeline),
        (Stream.has_push_remotes pipeline);
      simpl; rewrite ?app_nil_r; reflexivity. }
  assert (Hq : placed (Stream.build_queues pipeline plan)
               /\ Z.of_nat (List.length (Stream._track_elements pipeline))
                  + Z.of_nat (List.length plan)
                  = Z.of_nat (List.length
                                (flat_map Stream.enqueued
                                   (Stream.build_queues pipeline plan)))).
  { split; [|rewrite Hall, length_app; lia].
    subst placed. cbv beta. unfold Stream.build_queues.
    destruct (Stream._track_elements pipeline) as [|t ts] eqn:Et;
      destruct (Stream.has_fetch_remotes pipeline),
        (Stream.has_push_remotes pipeline);
      simpl; rewrite ?app_nil_r; repeat split; auto. }
  unfold Stream.build. fold plan.
  destruct (negb (Stream._assert_consistent pipeline plan)); [exact I|].
  destruct (run _); tauto.
Qed.

(** X14. What [fetch] hands to the scheduler: a Track queue with the
    elements to track, when there are any, then the Fetch queue; the
    Fetch queue holds the dependencies that are neither tracked nor
    already cached, in their order; [session_elements] is the number of
    elements in the two queues. *)
Theorem fetch_enqueues :
  forall (run : list Stream.Queue -> Stream.SchedStatus)
         (_get_consistency : Z -> Stream.Consistency)
         (pipeline : Stream.Pipeline) (dependencies : list Z),
    let plan :=
      filter (fun e =>
                negb (existsb (Z.eqb e) (Stream._track_elements pipeline))
                && negb (Stream.Consistency_beq (_get_consistency e)
                                                Stream.CACHED))
             dependencies in
    let placed queues :=
      map Stream.class queues
      = (if Stream.nonempty (Stream._track_elements pipeline)
         then [Stream.Track] else []) ++ [Stream.Fetch]
      /\ enqueued_in Stream.Track queues = Stream._track_elements pipeline
      /\ enqueued_in Stream.Fetch queues = plan in
    match Stream.fetch run _get_consistency pipeline dependencies with
    | Stream.Ran queues session_elements =>
        placed queues
        /\ session_elements
           = Z.of_nat (List.length (Stream._track_elements pipeline))
             + Z.of_nat (List.length plan)
    | Stream.StreamError _ queues => placed queues
    | Stream.PipelineError => True
    end.
Proof.
  intros run cons pipeline deps plan placed. unfold Stream.fetch.
  set (tracked := fun e => negb (existsb (Z.eqb e)
                                         (Stream._track_elements pipeline))).
  assert (H1 : (if Stream.nonempty (Stream._track_elements pipeline)
                then filter tracked deps else deps) = filter tracked deps).
  { subst tracked. destruct (Stream._track_elements pipeline); simpl;
      [|reflexivity].
    induction deps as [|d deps IH]; simpl; [reflexivity|]. now rewrite <- IH. }
  rewrite H1.
  destruct (negb (Stream._assert_consistent pipeline (filter tracked deps)));
    [exact I|].
  rewrite (filter_out_filtered
             (fun elt => Stream.Consistency_beq (cons elt) Stream.CACHED)).
  rewrite filter_filter. fold plan.
  assert (Hp : placed
                 (if Stream.nonempty (Stream._track_elements pipeline)
                  then [Stream.enqueue (Stream._track_elements pipeline)
                          (Stream.new Stream.Track);
                        Stream.enqueue plan (Stream.new Stream.Fetch)]
                  else [Stream.enqueue plan (Stream.new Stream.Fetch)])).
  { subst placed. cbv beta.
    destruct (Stream._track_elements pipeline); simpl;
      rewrite ?app_nil_r; auto. }
  destruct (run _); tauto.
Qed.

(** *** The time code of a log line *)

Lemma string_length_append :
  forall s1 s2 : string,
    String.length (s1 ++ s2) = (String.length s1 + String.length s2)%nat.
Proof.
  induction s1 as [|c s1 IH]; intros s2; simpl; [reflexivity|].
  now rewrite IH.
Qed.

Lemma format_02d_two_digits :
  forall n, 0 <= n < 100 -> String.length (format_02d n) = 2%nat.
Proof.
  intros n Hn.
  assert (H : forallb (fun k => Nat.eqb (String.length
                                           (format_02d (Z.of_nat k))) 2)
                      (seq 0 100) = true) by (vm_compute; reflexivity).
  rewrite forallb_forall in H.
  specialize (H (Z.to_nat n)). rewrite Z2Nat.id in H by lia.
  apply Nat.eqb_eq, H, in_seq. lia.
Qed.

Lemma str_of_nonneg :
  forall n, 0 <= n ->
    exists d, d <> Decimal.Nil
              /\ str n = NilEmpty.string_of_uint d
              /\ Z.of_uint d = n.
Proof.
  intros [|q|q] Hn; [| |lia].
  - exists (Decimal.D0 Decimal.Nil). repeat split. discriminate.
  - exists (Pos.to_uint q). split; [apply Unsigned.to_uint_nonnil|]. split.
    + unfold str. simpl. pose proof (Unsigned.to_uint_nonnil q) as H.
      destruct (Pos.to_uint q); [now elim H | reflexivity ..].
    + exact (DecimalZ.of_to (Z.pos q)).
Qed.

Lemma read_decimal_uint :
  forall d, d <> Decimal.Nil ->
    read_decimal (NilEmpty.string_of_uint d) = Some (Z.of_uint d)
    /\ read_decimal ("0" ++ NilEmpty.string_of_uint d)%string
       = Some (Z.of_uint d)
    /\ (1 <= String.length (NilEmpty.string_of_uint d))%nat.
Proof.
  intros d Hd. pose proof (NilEmpty.usu d) as U.
  split; [|split].
  - unfold read_decimal, NilZero.int_of_string.
    destruct d; [now elim Hd | ..]; cbn [NilEmpty.string_of_uint] in U |- *;
      cbn [Ascii.eqb Bool.eqb andb]; unfold NilZero.uint_of_string;
      rewrite U; reflexivity.
  - unfold read_decimal, NilZero.int_of_string. cbn [append].
    cbn [Ascii.eqb Bool.eqb andb]. unfold NilZero.uint_of_string.
    cbn [NilEmpty.uint_of_string]. rewrite U. reflexivity.
  - destruct d; [now elim Hd | ..]; simpl; lia.
Qed.

(** A field written with [{:02d}] reads back as the number and has at
    least two characters. *)
Lemma format_02d_field :
  forall n, 0 <= n ->
    read_decimal (format_02d n) = Some n
    /\ (2 <= String.length (format_02d n))%nat.
Proof.
  intros n Hn. destruct (str_of_nonneg n Hn) as [d (Hd & Hs & Hz)].
  destruct (read_decimal_uint d Hd) as (R1 & R2 & L).
  unfold format_02d. rewrite Hs.
  destruct (String.length (NilEmpty.string_of_uint d) <? 2)%nat eqn:E.
  - split; [now rewrite R2, Hz|]. rewrite string_length_append. simpl. lia.
  - split; [now rewrite R1, Hz|]. apply Nat.ltb_ge in E. exact E.
Qed.

(** X15. The time code of a [SUCCESS] or [FAIL] line is three decimal
    fields separated by colons: the fields read back as the hours, the
    minutes (below 60) and the seconds (below 60) of the elapsed time,
    which add up to it again; each field has at least two characters,
    minutes and seconds exactly two; up to 100 hours the time code is
    exactly the eight characters of its column. *)
Theorem timecode_fields :
  forall (t : MessageType) (elapsed : Z),
    t = SUCCESS \/ t = FAIL ->
    0 <= elapsed ->
    exists hours minutes seconds,
      timecode t elapsed
      = (format_02d hours ++ ":" ++ format_02d minutes ++ ":"
           ++ format_02d seconds)%string
      /\ read_decimal (format_02d hours) = Some hours
      /\ read_decimal (format_02d minutes) = Some minutes
      /\ read_decimal (format_02d seconds) = Some seconds
      /\ (2 <= String.length (format_02d hours))%nat
      /\ String.length (format_02d minutes) = 2%nat
      /\ String.length (format_02d seconds) = 2%nat
      /\ 0 <= hours
      /\ 0 <= minutes < 60
      /\ 0 <= seconds < 60
      /\ hours * 3600 + minutes * 60 + seconds = elapsed
      /\ (elapsed < 360000 -> String.length (timecode t elapsed) = 8%nat).
Proof.
  intros t elapsed Ht He.
  exists (elapsed / (60 * 60)), (elapsed mod (60 * 60) / 60),
    (elapsed mod (60 * 60) mod 60).
  assert (Etc : timecode t elapsed
                = (format_02d (elapsed / (60 * 60)) ++ ":"
                     ++ format_02d (elapsed mod (60 * 60) / 60) ++ ":"
                     ++ format_02d (elapsed mod (60 * 60) mod 60))%string).
  { unfold timecode. destruct Ht as [-> | ->]; reflexivity. }
  pose proof (Z.mod_pos_bound elapsed (60 * 60) ltac:(lia)) as Hr.
  pose proof (Z.mod_pos_bound (elapsed mod (60 * 60)) 60 ltac:(lia)) as Hs.
  pose proof (Z.div_mod elapsed (60 * 60) ltac:(lia)) as D1.
  pose proof (Z.div_mod (elapsed mod (60 * 60)) 60 ltac:(lia)) as D2.
  assert (Hm : 0 <= elapsed mod (60 * 60) / 60 < 60).
  { split; [apply Z.div_pos; lia | apply Z.div_lt_upper_bound; lia]. }
  assert (Hh : 0 <= elapsed / (60 * 60)) by (apply Z.div_pos; lia).
  destruct (format_02d_field _ Hh) as [Rh Lh].
  destruct (format_02d_field (elapsed mod (60 * 60) / 60)) as [Rm _]; [lia|].
  destruct (format_02d_field (elapsed mod (60 * 60) mod 60)) as [Rs _]; [lia|].
  pose proof (format_02d_two_digits (elapsed mod (60 * 60) / 60)
                ltac:(lia)) as Lm.
  pose proof (format_02d_two_digits (elapsed mod (60 * 60) mod 60)
                ltac:(lia)) as Ls.
  split; [exact Etc|]. split; [exact Rh|]. split; [exact Rm|].
  split; [exact Rs|]. split; [exact Lh|]. split; [exact Lm|].
  split; [exact Ls|]. split; [exact Hh|]. split; [exact Hm|].
  split; [exact Hs|]. split; [lia|].
  intros Hlt. rewrite Etc, !string_length_append.
  rewrite (format_02d_two_digits (elapsed / (60 * 60)))
    by (split; [exact Hh | apply Z.div_lt_upper_bound; lia]).
  rewrite Lm, Ls. reflexivity.
Qed.

Lemma timecode_fields_witness :
  exists hours minutes seconds,
    timecode FAIL 3725
    = (format_02d hours ++ ":" ++ format_02d minutes ++ ":"
         ++ format_02d seconds)%string
    /\ read_decimal (format_02d hours) = Some hours
    /\ read_decimal (format_02d minutes) = Some minutes
    /\ read_decimal (format_02d seconds) = Some seconds
    /\ (2 <= String.length (format_02d hours))%nat
    /\ String.length (format_02d minutes) = 2%nat
    /\ String.length (format_02d seconds) = 2%nat
    /\ 0 <= hours
    /\ 0 <= minutes < 60
    /\ 0 <= seconds < 60
    /\ hours * 3600 + minutes * 60 + seconds = 3725
    /\ (3725 < 360000 -> String.length (timecode FAIL 3725) = 8%nat).
Proof.
  apply (timecode_fields FAIL 3725); [right; reflexivity | lia].
Defined.

(** *** The ends of the retry range, and the state at completion *)



(** X17. When [complete_cb] is called the job is at rest: the parent has
    stopped listening, the queue has been read to its end, and the child
    watcher holds no handler for the job any more. *)
Theorem job_at_rest_when_completed :
  forall (um : list MessageType) (world : Z -> Worker) (el : Element)
         (name : string) (N : Z) (extra : nat),
  exists p',
    run_job um (Z.to_nat N + 2 + extra) world (__init__ el name N)
    = Some (Ok p')
    /\ listening (job p') = false
    /\ queue (job p') = []
    /\ watcher p' = None.
Proof.
  intros um world el name N extra.
  destruct (run_job_completes um world el name N extra)
    as [p' [tr (E & W & _)]].
  exists p'. split; [exact E|].
  assert (H : watcher p' = None ->
              listening (job p') = false /\ queue (job p') = []).
  { unfold run_job in E.
    refine (lifetime_preserves um world
              (fun p => watcher p = None ->
                        listening (job p) = false /\ queue (job p) = [])
              _ _ _ _ _ _ E).
    - intros p n pid p2 Hl Hr Hq _ H2.
      destruct (worker_exit_listening um (world n) pid p Hl Hr Hq)
        as [p1 (L1 & Q1 & _ & _ & _ & _ & _ & E1)].
      rewrite H2 in E1.
      destruct (negb _ && _); inversion E1; subst p2.
      + unfold spawn. simpl. discriminate.
      + intros _. simpl. auto.
    - right. repeat split.
    - simpl. discriminate. }
  destruct (H W) as [Hl Hq]. auto.
Qed.
